(** * Documentation acquisition pipeline of [src/utils/docs.tsx]

    A shallow embedding of [crawl], [getParams] and [getDocs] together with
    the three regular expressions the module exports, and the properties
    the specification states about them.

    Conventions of the embedding:
    - a JavaScript string is a [string]: a sequence of code units below 256;
    - the in-memory file system (memfs) is a finite tree of directories and
      regular files, addressed by path strings the way the code does;
      symbolic links are not modelled, and a path that does not start with
      [/] is resolved against the root, the working directory of the
      process being taken to be [/];
    - a call of [getDocs] runs up to its first [await] when it is made and
      goes on after the calls made with it have done the same: in a call
      for all libraries every clone is issued, in the order of the table,
      before any library is crawled, and every library is crawled on the
      file system the last clone has left (a clone is taken to act on the
      file system when it is called);
    - [git.clone], the [data/libraries] table and the YAML engine behind
      gray-matter are not part of [src/]: they are the fields of an
      environment record [Env];
    - code that can throw, or reject its promise, returns an [Outcome]. *)

From Stdlib Require Import String Ascii List Bool Arith Lia.
Import ListNotations.
Open Scope string_scope.

(* ================================================================== *)
(** ** Strings *)

Module Str.

Definition LF : ascii := "010"%char.
Definition CR : ascii := "013"%char.
Definition nl : string := String LF "".

(** [s.slice(n)] *)
Fixpoint drop (n : nat) (s : string) : string :=
  match n, s with
  | 0, _ => s
  | S _, EmptyString => EmptyString
  | S n', String _ s' => drop n' s'
  end.

(** [s.slice(0, n)] *)
Fixpoint take (n : nat) (s : string) : string :=
  match n, s with
  | 0, _ => EmptyString
  | S _, EmptyString => EmptyString
  | S n', String c s' => String c (take n' s')
  end.

(** [s.startsWith(p)] *)
Fixpoint startsWith (p s : string) : bool :=
  match p, s with
  | EmptyString, _ => true
  | String _ _, EmptyString => false
  | String a p', String b s' => Ascii.eqb a b && startsWith p' s'
  end.

(** [s.indexOf(p)], [None] standing for -1 *)
Fixpoint indexOf (p s : string) : option nat :=
  if startsWith p s then Some 0
  else match s with
       | EmptyString => None
       | String _ s' => option_map S (indexOf p s')
       end.

(** [s.replace(p, '')] for a string pattern [p]: only the first occurrence
    is removed. *)
Definition removeFirst (p s : string) : string :=
  match indexOf p s with
  | Some i => take i s ++ drop (i + String.length p) s
  | None => s
  end.

(** [s.replace(p, r)] for a one-character string pattern and a replacement
    without [$]: the first occurrence of [p] becomes [r]. *)
Fixpoint replaceFirstChar (p : ascii) (r : string) (s : string) : string :=
  match s with
  | EmptyString => EmptyString
  | String c s' => if Ascii.eqb c p then r ++ s' else String c (replaceFirstChar p r s')
  end.

(** [s.split(sep)] for a one-character separator: never the empty list. *)
Fixpoint split (sep : ascii) (s : string) : list string :=
  match s with
  | EmptyString => [EmptyString]
  | String c s' =>
      if Ascii.eqb c sep then EmptyString :: split sep s'
      else match split sep s' with
           | [] => [String c EmptyString]
           | h :: t => String c h :: t
           end
  end.

(** [segs.join(sep)] *)
Fixpoint join (sep : string) (segs : list string) : string :=
  match segs with
  | [] => EmptyString
  | [x] => x
  | x :: rest => x ++ sep ++ join sep rest
  end.

(** [s.includes(p)] *)
Definition includes (p s : string) : bool :=
  match indexOf p s with Some _ => true | None => false end.

End Str.

(* ================================================================== *)
(** ** Regular expressions

    A backtracking matcher with the priorities of ECMAScript: alternatives
    left to right, lazy stars try the continuation first, an iteration of a
    star that consumes nothing is rejected.  Only the constructs the three
    regular expressions of the module use are present. *)

Module Regex.

Inductive regex : Type :=
| Chr (p : ascii -> bool)      (* one code unit satisfying [p] *)
| Seq (a b : regex)            (* ab *)
| Alt (a b : regex)            (* a|b *)
| LazyStar (a : regex)         (* a*? *)
| Opt (a : regex)              (* a? *)
| Ahead (a : regex)            (* (?=a) *)
| NotAhead (a : regex)         (* (?!a) *)
| Bos                          (* ^ without the m flag *)
| Eos.                         (* $ without the m flag *)

Definition Lit1 (c : ascii) : regex := Chr (Ascii.eqb c).

(** A literal of at least one character. *)
Fixpoint Lit (c : ascii) (s : string) : regex :=
  match s with
  | EmptyString => Lit1 c
  | String d s' => Seq (Lit1 c) (Lit d s')
  end.

(** [\s] on code units below 256: TAB, LF, VT, FF, CR, space, NBSP. *)
Definition isSpace (c : ascii) : bool :=
  let n := nat_of_ascii c in
  (Nat.leb 9 n && Nat.leb n 13) || Nat.eqb n 32 || Nat.eqb n 160.

(** [.] without the s flag: anything but a line terminator; among the code
    units below 256 these are LF and CR. *)
Definition isDot (c : ascii) : bool :=
  negb (Ascii.eqb c Str.LF) && negb (Ascii.eqb c Str.CR).

Definition notLF (c : ascii) : bool := negb (Ascii.eqb c Str.LF).

(** [rmatch r i s k]: match [r] against [s], the part of the input that
    starts at index [i]; [k] is the rest of the pattern.  The result is the
    index where the whole match ends. *)
Fixpoint rmatch (r : regex) (i : nat) (s : string)
         (k : nat -> string -> option nat) {struct r} : option nat :=
  match r with
  | Chr p =>
      match s with
      | String c s' => if p c then k (S i) s' else None
      | EmptyString => None
      end
  | Seq a b => rmatch a i s (fun j t => rmatch b j t k)
  | Alt a b =>
      match rmatch a i s k with
      | Some e => Some e
      | None => rmatch b i s k
      end
  | LazyStar a =>
      (fix loop (n : nat) (j : nat) (t : string) {struct n} : option nat :=
         match k j t with
         | Some e => Some e
         | None =>
             match n with
             | 0 => None
             | S n' =>
                 rmatch a j t
                   (fun j' t' => if Nat.ltb j j' then loop n' j' t' else None)
             end
         end) (String.length s) i s
  | Opt a =>
      match rmatch a i s k with
      | Some e => Some e
      | None => k i s
      end
  | Ahead a =>
      match rmatch a i s (fun j _ => Some j) with
      | Some _ => k i s
      | None => None
      end
  | NotAhead a =>
      match rmatch a i s (fun j _ => Some j) with
      | Some _ => None
      | None => k i s
      end
  | Bos => if Nat.eqb i 0 then k i s else None
  | Eos => match s with EmptyString => k i s | String _ _ => None end
  end.

(** A match starting exactly at index [i]. *)
Definition matchAt (r : regex) (i : nat) (s : string) : option nat :=
  rmatch r i s (fun j _ => Some j).

(** The leftmost match at or after index [i]: its start and its end. *)
Fixpoint search (r : regex) (i : nat) (s : string) : option (nat * nat) :=
  match matchAt r i s with
  | Some e => Some (i, e)
  | None =>
      match s with
      | EmptyString => None
      | String _ s' => search r (S i) s'
      end
  end.

(** [r.test(s)] for a regular expression without the g and y flags. *)
Definition test (r : regex) (s : string) : bool :=
  match search r 0 s with Some _ => true | None => false end.

(** [s.replace(r, '')] for [r] without the g flag: the leftmost match is
    removed. *)
Definition removeFirst (r : regex) (s : string) : string :=
  match search r 0 s with
  | Some (a, e) => Str.take a s ++ Str.drop e s
  | None => s
  end.

(** [s.replace(r, '')] for [r] with the g flag.  [s] is the input from
    index [i] on; after an empty match the search resumes one code unit
    further. *)
Fixpoint removeAllFrom (fuel : nat) (r : regex) (i : nat) (s : string) : string :=
  match fuel with
  | 0 => s
  | S fuel' =>
      match search r i s with
      | None => s
      | Some (a, e) =>
          let pre := Str.take (a - i) s in
          if Nat.eqb e a then
            match Str.drop (a - i) s with
            | EmptyString => pre
            | String c rest => pre ++ String c (removeAllFrom fuel' r (S a) rest)
            end
          else pre ++ removeAllFrom fuel' r e (Str.drop (e - i) s)
      end
  end.

Definition removeAll (r : regex) (s : string) : string :=
  removeAllFrom (S (String.length s)) r 0 s.

End Regex.

Import Regex.

(** [/\.mdx?$/] *)
Definition MARKDOWN_REGEX : regex :=
  Seq (Lit "." "md") (Seq (Opt (Lit1 "x")) Eos).

(** [/^<!--[\s\n]*?(?=---)|(?!---)[\s\n]*?-->/g] *)
Definition FRONTMATTER_REGEX : regex :=
  Alt (Seq Bos (Seq (Lit "<" "!--") (Seq (LazyStar (Chr isSpace)) (Ahead (Lit "-" "--")))))
      (Seq (NotAhead (Lit "-" "--")) (Seq (LazyStar (Chr isSpace)) (Lit "-" "->"))).

(** [/<!--(.|\n)*?-->|<!--[^\n]*?\n/g] *)
Definition COMMENT_REGEX : regex :=
  Alt (Seq (Lit "<" "!--") (Seq (LazyStar (Alt (Chr isDot) (Lit1 Str.LF))) (Lit "-" "->")))
      (Seq (Lit "<" "!--") (Seq (LazyStar (Chr notLF)) (Lit1 Str.LF))).

(* ================================================================== *)
(** ** Outcomes of code that can throw *)

Inductive Error : Type :=
| AcquisitionFailure            (* git.clone rejected *)
| ENOENT (path : string)        (* no such file or directory *)
| ENOTDIR (path : string)
| EISDIR (path : string)
| ParseFailure.                 (* the front matter is not valid YAML *)

(** [OutOfFuel] is the only outcome that is not one of the program: the
    recursion was cut before the call returned. *)
Inductive Outcome (A : Type) : Type :=
| Ok (a : A)
| Throw (e : Error)
| OutOfFuel.

Arguments Ok {A} a.
Arguments Throw {A} e.
Arguments OutOfFuel {A}.

Definition bind {A B : Type} (m : Outcome A) (f : A -> Outcome B) : Outcome B :=
  match m with
  | Ok a => f a
  | Throw e => Throw e
  | OutOfFuel => OutOfFuel
  end.

Notation "x <- m ;; k" := (bind m (fun x => k))
  (at level 61, m at next level, right associativity).

(** A loop whose body can throw: the first failure ends it. *)
Fixpoint foldOutcome {A B : Type} (f : A -> B -> Outcome A) (l : list B) (a : A)
  : Outcome A :=
  match l with
  | [] => Ok a
  | x :: rest => a' <- f a x ;; foldOutcome f rest a'
  end.

(** [Promise.all] on promises that are already settled: the values when
    every one is fulfilled, else the first failure. *)
Fixpoint promiseAll {A : Type} (l : list (Outcome A)) : Outcome (list A) :=
  match l with
  | [] => Ok []
  | o :: rest => a <- o ;; more <- promiseAll rest ;; Ok (a :: more)
  end.

(* ================================================================== *)
(** ** The in-memory file system *)

#[warnings="-register-all"]
Inductive node : Type :=
| File (text : string)
| Dir (entries : list (string * node)).

Fixpoint assoc {A : Type} (k : string) (l : list (string * A)) : option A :=
  match l with
  | [] => None
  | (k', v) :: rest => if String.eqb k' k then Some v else assoc k rest
  end.

(** Path resolution: empty segments and [.] are skipped, [..] goes up.  A
    path without a leading [/] resolves from the root. *)
Definition step (acc : list string) (seg : string) : list string :=
  if String.eqb seg "" then acc
  else if String.eqb seg "." then acc
  else if String.eqb seg ".." then removelast acc
  else (acc ++ [seg])%list.

Definition steps (p : string) : list string :=
  fold_left step (Str.split "/" p) [].

Fixpoint walk (n : node) (segs : list string) : option node :=
  match segs with
  | [] => Some n
  | seg :: rest =>
      match n with
      | Dir entries =>
          match assoc seg entries with
          | Some child => walk child rest
          | None => None
          end
      | File _ => None
      end
  end.

Definition lookup (root : node) (p : string) : option node :=
  walk root (steps p).

Definition isDirectory (n : node) : bool :=
  match n with Dir _ => true | File _ => false end.

Definition lstatSync (root : node) (p : string) : Outcome node :=
  match lookup root p with
  | Some n => Ok n
  | None => Throw (ENOENT p)
  end.

Definition readdirSync (root : node) (p : string) : Outcome (list string) :=
  match lookup root p with
  | Some (Dir entries) => Ok (map fst entries)
  | Some (File _) => Throw (ENOTDIR p)
  | None => Throw (ENOENT p)
  end.

Definition readFileSync (root : node) (p : string) : Outcome string :=
  match lookup root p with
  | Some (File text) => Ok text
  | Some (Dir _) => Throw (EISDIR p)
  | None => Throw (ENOENT p)
  end.

(* ================================================================== *)
(** ** [crawl] *)

(** [filter] is [None] when the argument is left out.  The pushes into the
    shared [files] array all happen before the first [await] of the
    outermost call, children in [readdirSync] order, so the array is
    threaded through the children from left to right. *)
Fixpoint crawl (fuel : nat) (root : node) (dir : string) (filter : option regex)
         (files : list string) : Outcome (list string) :=
  match fuel with
  | 0 => OutOfFuel
  | S fuel' =>
      st <- lstatSync root dir ;;
      if isDirectory st then
        filenames <- readdirSync root dir ;;
        foldOutcome
          (fun files filename => crawl fuel' root (dir ++ "/" ++ filename) filter files)
          filenames files
      else if match filter with None => true | Some r => test r dir end then
        Ok (files ++ [dir])%list
      else Ok files
  end.

(* ================================================================== *)
(** ** The environment of the module *)

(** [libs[lib].docs] of [data/libraries] *)
Record DocsConfig : Type := {
  dir : option string;
  repo : string;
  branch : option string
}.

(** An entry of [data/libraries]; only its [docs] field is read here. *)
Record LibConfig : Type := {
  docs : option DocsConfig
}.

(** The argument of [git.clone]; [fs] and [http] are fixed. *)
Record CloneRequest : Type := {
  clone_dir : string;
  clone_url : string;
  clone_ref : string;
  clone_singleBranch : bool;
  clone_depth : nat
}.

(** The state [getDocs] works on: the file system, and the [git.clone]
    calls made so far. *)
Record World : Type := {
  fs : node;
  clones : list CloneRequest
}.

(** What the module imports and [src/] does not define.  [gitClone] gives
    the file system the call leaves behind and whether it rejected. *)
Record Env : Type := {
  Data : Type;
  emptyData : Data;
  yamlLoad : string -> Outcome Data;
  libs : list (string * LibConfig);
  gitClone : World -> CloneRequest -> node * option Error
}.

(** A document, as written to the docs map. *)
Record Doc (D : Type) : Type := {
  path : string;
  slug : list string;
  data : D;
  content : string
}.

Arguments path {D} _.
Arguments slug {D} _.
Arguments data {D} _.
Arguments content {D} _.

(** A JS [Map] with string keys, in insertion order. *)
Definition DocMap (D : Type) : Type := list (string * Doc D).

(** [Map.prototype.set]: a key that is present keeps its place. *)
Fixpoint mapSet {V : Type} (k : string) (v : V) (m : list (string * V))
  : list (string * V) :=
  match m with
  | [] => [(k, v)]
  | (k', v') :: rest =>
      if String.eqb k' k then (k, v) :: rest else (k', v') :: mapSet k v rest
  end.

Definition mapValues {V : Type} (m : list (string * V)) : list V := map snd m.

(** What [getDocs] resolves to. *)
Inductive DocsResult (D : Type) : Type :=
| AllDocs (all : list (Doc D))      (* no library given *)
| LibDocs (m : DocMap D)            (* the docs map of one library *)
| Absent.                           (* undefined *)

Arguments AllDocs {D} all.
Arguments LibDocs {D} m.
Arguments Absent {D}.

Record Params : Type := {
  p_repo : string;
  p_branch : string;
  gitDir : string;
  entry : string
}.

Definition orDefault {A : Type} (d : A) (o : option A) : A :=
  match o with Some a => a | None => d end.

Definition isEmpty (s : string) : bool :=
  match s with EmptyString => true | String _ _ => false end.

Section Docs.

Variable E : Env.

(** Modelled from the spec: gray-matter's [matter] is imported, not under
    src/.  The front-matter block is delimited by [---] lines at the start
    of the text and is separated from the remaining body; without such a
    block the front matter is empty and the body is the whole text.  The
    YAML engine is [yamlLoad]. *)
Definition matter (text : string) : Outcome (Data E * string) :=
  if negb (Str.startsWith "---" text) then Ok (emptyData E, text)
  else if Str.startsWith "----" text then Ok (emptyData E, text)
  else
    let str := Str.drop 3 text in
    let load block :=
      if isEmpty (removeAll (Chr isSpace) block) then Ok (emptyData E)
      else yamlLoad E block in
    match Str.indexOf (Str.nl ++ "---") str with
    | None => d <- load str ;; Ok (d, "")
    | Some i =>
        d <- load (Str.take i str) ;;
        let rest := Str.drop (i + 4) str in
        Ok (d, match rest with
               | String c rest' => if Ascii.eqb c Str.LF then rest' else rest
               | EmptyString => rest
               end)
    end.

(** [getParams] *)
Definition getParams (lib : string) : option Params :=
  match assoc lib (libs E) with
  | None => None
  | Some config =>
      match docs config with
      | None => None
      | Some d =>
          let dir := orDefault "" (dir d) in
          let repo := repo d in
          let branch := orDefault "main" (branch d) in
          let gitDir := "/" ++ Str.replaceFirstChar "/" "-" repo ++ "-" ++ branch in
          let entry := if isEmpty dir then gitDir else gitDir ++ "/" ++ dir in
          Some {| p_repo := repo; p_branch := branch; gitDir := gitDir; entry := entry |}
      end
  end.

Definition cloneRequest (params : Params) : CloneRequest :=
  {| clone_dir := gitDir params;
     clone_url := "https://github.com/" ++ p_repo params;
     clone_ref := p_branch params;
     clone_singleBranch := true;
     clone_depth := 1 |}.

(** [await git.clone({...})]: the call is logged, then it either leaves a
    new file system or rejects. *)
Definition clone (params : Params) (w : World) : World * Outcome unit :=
  let req := cloneRequest params in
  let (fs', failure) := gitClone E w req in
  ({| fs := fs'; clones := (clones w ++ [req])%list |},
   match failure with Some e => Throw e | None => Ok tt end).

(** [file.replace(`${params.entry}/`, '')] *)
Definition docPath (entry file : string) : string :=
  Str.removeFirst (entry ++ "/") file.

(** [[lib, ...path.replace(MARKDOWN_REGEX, '').split('/')]] *)
Definition docSlug (lib path : string) : list string :=
  lib :: Str.split "/" (removeFirst MARKDOWN_REGEX path).

(** The body of [files.forEach], up to the write into the map. *)
Definition parseDoc (lib : string) (params : Params) (root : node) (file : string)
  : Outcome (Doc (Data E)) :=
  let path := docPath (entry params) file in
  let slug := docSlug lib path in
  text <- readFileSync root file ;;
  compiled <- matter text ;;
  let content :=
    removeAll COMMENT_REGEX (removeAll FRONTMATTER_REGEX (snd compiled)) in
  Ok {| path := path; slug := slug; data := fst compiled; content := content |}.

(** [docs.set(slug.join('/'), { path, slug, data, content })] *)
Definition addDoc (lib : string) (params : Params) (root : node)
           (docs : DocMap (Data E)) (file : string) : Outcome (DocMap (Data E)) :=
  d <- parseDoc lib params root file ;;
  Ok (mapSet (Str.join "/" (slug d)) d docs).

(** [!lib] *)
Definition unspecified (lib : option string) : bool :=
  match lib with
  | None => true
  | Some s => isEmpty s
  end.

(** [Boolean(c)] on a result of [getDocs] *)
Definition truthy (c : DocsResult (Data E)) : bool :=
  match c with Absent => false | _ => true end.

(** [Array.from(c.values())] *)
Definition valuesOf (c : DocsResult (Data E)) : list (Doc (Data E)) :=
  match c with
  | AllDocs all => all
  | LibDocs m => mapValues m
  | Absent => []
  end.

(** A call of [getDocs] that has run up to its first [await]: it has
    returned already, it waits for its clone, or it waits for the calls it
    made for the keys of the table. *)
#[local] Unset Elimination Schemes.
Inductive Pending : Type :=
| Settled (o : Outcome (DocsResult (Data E)))
| AwaitClone (lib : string) (params : Params) (cloned : Outcome unit)
| AwaitAll (children : list Pending).
#[local] Set Elimination Schemes.

(** [Object.keys(libs).map(getDocs)]: the calls are made in key order; each
    runs up to its first [await], on the world the one before left. *)
Fixpoint startAll {A : Type} (f : option string -> World -> World * A)
         (keys : list string) (w : World) : World * list A :=
  match keys with
  | [] => (w, [])
  | k :: rest =>
      let (w1, a) := f (Some k) w in
      let (w2, more) := startAll f rest w1 in
      (w2, a :: more)
  end.

(** [getDocs] up to its first [await].  [git.clone] has its effect on the
    file system when it is called.  Past the guard [if (!lib)] the argument
    is a string that is not empty: [orDefault "" lib] is that string. *)
Fixpoint start (fuel : nat) (lib : option string) (w : World) : World * Pending :=
  match fuel with
  | 0 => (w, Settled OutOfFuel)
  | S fuel' =>
      if unspecified lib then
        let (w', children) := startAll (start fuel') (map fst (libs E)) w in
        (w', AwaitAll children)
      else
        match getParams (orDefault "" lib) with
        | None => (w, Settled (Ok Absent))
        | Some params =>
            let (w1, cloned) := clone params w in
            (w1, AwaitClone (orDefault "" lib) params cloned)
        end
  end.

(** [getDocs] from its first [await] on.  The calls that wait are resumed
    when all of them have been started, so each of them crawls the file
    system [root] that the clones of all of them left. *)
Fixpoint resume (fuel : nat) (root : node) (pending : Pending)
  : Outcome (DocsResult (Data E)) :=
  match pending with
  | Settled o => o
  | AwaitClone lib params cloned =>
      _ <- cloned ;;
      files <- crawl fuel root (entry params) (Some MARKDOWN_REGEX) [] ;;
      docs <- foldOutcome (addDoc lib params root) files [] ;;
      Ok (LibDocs docs)
  | AwaitAll children =>
      docs <- promiseAll (map (resume fuel root) children) ;;
      Ok (AllDocs (flat_map valuesOf (filter truthy docs)))
  end.

(** [getDocs] *)
Definition getDocs (fuel : nat) (lib : option string) (w : World)
  : World * Outcome (DocsResult (Data E)) :=
  let (w', pending) := start fuel lib w in
  (w', resume (pred fuel) (fs w') pending).

End Docs.

Arguments Settled {E} o.
Arguments AwaitClone {E} lib params cloned.
Arguments AwaitAll {E} children.

(* ================================================================== *)
(** ** A small YAML engine for the examples *)

(** Modelled from the spec: the YAML engine is not under src/.  The front
    matter is a YAML-like key/value block: one [key: value] per line, blank
    lines skipped; anything else is a parse failure. *)
Definition yamlLine (line : string) : Outcome (option (string * string)) :=
  if isEmpty (removeAll (Chr isSpace) line) then Ok None
  else match Str.indexOf ": " line with
       | Some i => Ok (Some (Str.take i line, Str.drop (i + 2) line))
       | None => Throw ParseFailure
       end.

Definition yamlKV (block : string) : Outcome (list (string * string)) :=
  foldOutcome
    (fun acc line => kv <- yamlLine line ;;
                     Ok (match kv with Some p => (acc ++ [p])%list | None => acc end))
    (Str.split Str.LF block) [].

(* ================================================================== *)
(** ** Well-formed trees *)

(** A name a directory can hold: not empty, not [.] or [..], no separator. *)
Fixpoint noSlash (s : string) : bool :=
  match s with
  | EmptyString => true
  | String c s' => negb (Ascii.eqb c "/") && noSlash s'
  end.

Definition properName (s : string) : bool :=
  negb (String.eqb s "") && negb (String.eqb s ".") && negb (String.eqb s "..")
  && noSlash s.

(** Every directory holds proper names, each once. *)
Fixpoint wfTree (n : node) : Prop :=
  match n with
  | File _ => True
  | Dir entries =>
      NoDup (map fst entries) /\
      (fix each (l : list (string * node)) : Prop :=
         match l with
         | [] => True
         | e :: rest => properName (fst e) = true /\ wfTree (snd e) /\ each rest
         end) entries
  end.

Fixpoint depth (n : node) : nat :=
  match n with
  | File _ => 0
  | Dir entries =>
      S ((fix deepest (l : list (string * node)) : nat :=
            match l with
            | [] => 0
            | e :: rest => Nat.max (depth (snd e)) (deepest rest)
            end) entries)
  end.

(** [fileUnder n p f]: [f] is the path of a regular file of the tree [n],
    whose own path is [p]. *)
Inductive fileUnder : node -> string -> string -> Prop :=
| under_file : forall text p, fileUnder (File text) p p
| under_dir : forall entries p name child f,
    In (name, child) entries ->
    fileUnder child (p ++ "/" ++ name) f ->
    fileUnder (Dir entries) p f.

(** [fs.lstatSync(p).isDirectory()], false when [p] does not exist. *)
Definition isDirectory_at (root : node) (p : string) : bool :=
  match lookup root p with Some n => isDirectory n | None => false end.

(** [f] is [p] or lies below it. *)
Definition below (p f : string) : Prop :=
  f = p \/ exists rest, f = p ++ "/" ++ rest.

(* ================================================================== *)
(** ** What [MARKDOWN_REGEX] matches *)

(** The two extensions [/\.mdx?$/] stands for. *)
Definition isExt (s : string) : bool :=
  String.eqb s ".md" || String.eqb s ".mdx".

(** [s] ends with a markdown extension. *)
Fixpoint hasExt (s : string) : bool :=
  isExt s || match s with
             | EmptyString => false
             | String _ s' => hasExt s'
             end.

(** [s] without the markdown extension it ends with, if any. *)
Fixpoint dropExt (s : string) : string :=
  if isExt s then EmptyString
  else match s with
       | EmptyString => EmptyString
       | String c s' => String c (dropExt s')
       end.

(** Where the extension starts. *)
Fixpoint extStart (s : string) : option nat :=
  if isExt s then Some 0
  else match s with
       | EmptyString => None
       | String _ s' => option_map S (extStart s')
       end.

(** [f] on the last element of a list. *)
Fixpoint mapLast {A : Type} (f : A -> A) (l : list A) : list A :=
  match l with
  | [] => []
  | [x] => [f x]
  | x :: rest => x :: mapLast f rest
  end.

(** [s] without the prefix [p], if it starts with it. *)
Definition stripPrefix (p s : string) : string :=
  if Str.startsWith p s then Str.drop (String.length p) s else s.

(* ================================================================== *)
(** ** Predicates on results *)

(** The paths a filter lets through: every path when there is no filter,
    the paths the regular expression finds a match in when there is one. *)
Definition accepts (filter : option regex) (f : string) : bool :=
  match filter with None => true | Some r => test r f end.

(** What [crawl] adds to [files] for the tree [n] at path [p]. *)
Definition crawled (filter : option regex) (n : node) (p : string)
           (found : list string) : Prop :=
  NoDup found /\
  forall f, In f found <-> fileUnder n p f /\ accepts filter f = true.

(** The key a document is stored under. *)
Definition docKey {D : Type} (d : Doc D) : string := Str.join "/" (slug d).

(** Keys are distinct, every entry is filed under its joined slug and is
    the document of one of the files. *)
Definition docsInvariant (E : Env) (lib : string) (params : Params) (root : node)
           (files : list string) (docs : DocMap (Data E)) : Prop :=
  NoDup (map fst docs) /\
  forall k d, In (k, d) docs ->
              k = docKey d /\
              exists file, In file files /\ parseDoc E lib params root file = Ok d.

(* ================================================================== *)
(** ** The regular expressions as scanners *)

(** The loop of a lazy star [a*?] followed by [k], as [rmatch] runs it with
    [n] iterations left. *)
Definition lazyLoop (a : regex) (k : nat -> string -> option nat)
  : nat -> nat -> string -> option nat :=
  fix loop (n : nat) (j : nat) (t : string) {struct n} : option nat :=
    match k j t with
    | Some e => Some e
    | None =>
        match n with
        | 0 => None
        | S n' =>
            rmatch a j t
              (fun j' t' => if Nat.ltb j j' then loop n' j' t' else None)
        end
    end.

(** Going right over code units of the class [p], the first place where
    [k] matches. *)
Fixpoint scan (p : ascii -> bool) (k : nat -> string -> option nat)
         (i : nat) (t : string) : option nat :=
  match k i t with
  | Some e => Some e
  | None =>
      match t with
      | String c t' => if p c then scan p k (S i) t' else None
      | EmptyString => None
      end
  end.

(** [(?=---)] at index [j] *)
Definition dashesAhead (j : nat) (u : string) : option nat :=
  if Str.startsWith "---" u then Some j else None.

(** [-->] at index [j] *)
Definition closerAt (j : nat) (u : string) : option nat :=
  if Str.startsWith "-->" u then Some (3 + j) else None.

(** [\n] at index [j] *)
Definition lineFeedAt (j : nat) (u : string) : option nat :=
  match u with
  | String c _ => if Ascii.eqb Str.LF c then Some (S j) else None
  | EmptyString => None
  end.

(** [.|\n] as one class *)
Definition dotOrLF (c : ascii) : bool := isDot c || Ascii.eqb Str.LF c.

(** Where a match of [FRONTMATTER_REGEX] that starts at index [i] ends. *)
Definition frontmatterAt (i : nat) (t : string) : option nat :=
  match (if Nat.eqb i 0 && Str.startsWith "<!--" t
         then scan isSpace dashesAhead (4 + i) (Str.drop 4 t) else None) with
  | Some e => Some e
  | None => if Str.startsWith "---" t then None else scan isSpace closerAt i t
  end.

(** Where a match of [COMMENT_REGEX] that starts at index [i] ends. *)
Definition commentAt (i : nat) (t : string) : option nat :=
  if Str.startsWith "<!--" t then
    match scan dotOrLF closerAt (4 + i) (Str.drop 4 t) with
    | Some e => Some e
    | None => scan notLF lineFeedAt (4 + i) (Str.drop 4 t)
    end
  else None.

(** No code unit of [s] is [x]. *)
Fixpoint noChar (x : ascii) (s : string) : bool :=
  match s with
  | EmptyString => true
  | String c s' => negb (Ascii.eqb c x) && noChar x s'
  end.

(** [s] is not empty and its last code unit is not white space. *)
Fixpoint endsSolid (s : string) : bool :=
  match s with
  | EmptyString => false
  | String c EmptyString => negb (isSpace c)
  | String _ s' => endsSolid s'
  end.

(** Every code unit of [s] satisfies [p]. *)
Fixpoint allChars (p : ascii -> bool) (s : string) : bool :=
  match s with
  | EmptyString => true
  | String c s' => p c && allChars p s'
  end.

(* ================================================================== *)
(** ** The order of a crawl, the clones of a table *)

(** The regular files of the tree [n] at path [p], directories in the order
    of their entries, depth first. *)
Fixpoint listing (n : node) (p : string) : list string :=
  match n with
  | File _ => [p]
  | Dir entries =>
      (fix each (l : list (string * node)) : list string :=
         match l with
         | [] => []
         | e :: rest => (listing (snd e) (p ++ "/" ++ fst e) ++ each rest)%list
         end) entries
  end.

(** What a settled call for one library adds to the result of a call for
    all of them: the values of its docs map, nothing when it returned
    undefined. *)
Definition libraryDocs {D : Type} (o : Outcome (DocsResult D)) : list (Doc D) :=
  match o with
  | Ok (LibDocs m) => map snd m
  | _ => []
  end.

(** The clone requests of the libraries [keys] that have a docs
    configuration, in the order of [keys]. *)
Definition requests (E : Env) (keys : list string) : list CloneRequest :=
  flat_map (fun k => match getParams E k with
                     | Some params => [cloneRequest params]
                     | None => []
                     end) keys.

(* ================================================================== *)
(** ** A concrete environment *)

Module Example.

Import Str.

(** An environment whose front matter is read by [yamlKV]. *)
Definition yamlEnv (table : list (string * LibConfig))
           (remote : World -> CloneRequest -> node * option Error) : Env :=
  {| Data := list (string * string);
     emptyData := [];
     yamlLoad := yamlKV;
     libs := table;
     gitClone := remote |}.

Definition introText : string :=
  "---" ++ nl ++ "title: X" ++ nl ++ "---" ++ nl ++ "Body".

Definition hiddenText : string :=
  "<!-- --> " ++ nl ++ "---" ++ nl ++ "title: A" ++ nl ++ "---" ++ nl
  ++ "<!-- hidden -->Visible".

(** The checkout of the repository [o/r]. *)
Definition repoTree : node :=
  Dir [("docs", Dir [("guide", Dir [("intro.md", File introText)]);
                     ("a.md", File "first");
                     ("a.mdx", File "second");
                     ("notes.txt", File "not markdown")]);
       ("README.md", File "read me")].

(** A remote that serves [o/r] and nothing else: the checkout is written
    under the requested directory of the root. *)
Definition remote (w : World) (req : CloneRequest) : node * option Error :=
  if String.eqb (clone_url req) "https://github.com/o/r" then
    (match fs w with
     | Dir entries => Dir (mapSet (drop 1 (clone_dir req)) repoTree entries)
     | File text => File text
     end, None)
  else (fs w, Some AcquisitionFailure).

Definition docsOf (d : option string) (r : string) : LibConfig :=
  {| docs := Some {| dir := d; repo := r; branch := None |} |}.

Definition table : list (string * LibConfig) :=
  [("lib", docsOf (Some "docs") "o/r");
   ("plain", {| docs := None |});
   ("whole", docsOf None "o/r")].

(** The same table with a library whose repository does not exist. *)
Definition brokenTable : list (string * LibConfig) :=
  ("gone", docsOf None "o/missing") :: table.

(** A library whose [dir] names a markdown file. *)
Definition fileTable : list (string * LibConfig) :=
  [("readme", docsOf (Some "README.md") "o/r")].

Definition env : Env := yamlEnv table remote.
Definition brokenEnv : Env := yamlEnv brokenTable remote.
Definition fileEnv : Env := yamlEnv fileTable remote.

Definition emptyWorld : World := {| fs := Dir []; clones := [] |}.

(** The file system once [o/r] is cloned into an empty one. *)
Definition cloned : node := Dir [("o-r-main", repoTree)].

(** The parameters of a library with repository [r], branch [b] and
    directory [d] ([""] when there is none). *)
Definition mkParams (r b d : string) : Params :=
  let g := "/" ++ replaceFirstChar "/" "-" r ++ "-" ++ b in
  {| p_repo := r; p_branch := b; gitDir := g;
     entry := if isEmpty d then g else g ++ "/" ++ d |}.

(** The documents of the library [lib]. *)
Definition introDoc : Doc (list (string * string)) :=
  {| path := "guide/intro.md"; slug := ["lib"; "guide"; "intro"];
     data := [("title", "X")]; content := "Body" |}.

Definition secondDoc : Doc (list (string * string)) :=
  {| path := "a.mdx"; slug := ["lib"; "a"]; data := []; content := "second" |}.

(** The docs map of the library [whole], whose entry is the repository. *)
Definition wholeDocs : DocMap (list (string * string)) :=
  [("whole/docs/guide/intro",
    {| path := "docs/guide/intro.md"; slug := ["whole"; "docs"; "guide"; "intro"];
       data := [("title", "X")]; content := "Body" |});
   ("whole/docs/a",
    {| path := "docs/a.mdx"; slug := ["whole"; "docs"; "a"];
       data := []; content := "second" |});
   ("whole/README",
    {| path := "README.md"; slug := ["whole"; "README"];
       data := []; content := "read me" |})].

(** A checkout whose only document is [hiddenText], and its document. *)
Definition hiddenTree : node :=
  Dir [("o-r-main", Dir [("docs", Dir [("hidden.md", File hiddenText)])])].

Definition hiddenDoc : Doc (list (string * string)) :=
  {| path := "hidden.md"; slug := ["lib"; "hidden"]; data := [];
     content := "---" ++ nl ++ "title: A" ++ nl ++ "---" ++ nl
                ++ "<!-- hiddenVisible" |}.

(** The document of the library whose [dir] is [README.md]. *)
Definition readmeDoc : Doc (list (string * string)) :=
  {| path := "/o-r-main/README.md"; slug := ["readme"; ""; "o-r-main"; "README"];
     data := []; content := "read me" |}.

(** Two libraries whose repositories and branches spell the same slot. *)
Definition slotTable : list (string * LibConfig) :=
  [("one", {| docs := Some {| dir := None; repo := "o/n-x"; branch := Some "y" |} |});
   ("two", {| docs := Some {| dir := None; repo := "o/n"; branch := Some "x-y" |} |})].

Definition slotEnv : Env := yamlEnv slotTable remote.

(** A library whose [dir] is not in the repository. *)
Definition nodirEnv : Env :=
  yamlEnv [("nodir", docsOf (Some "documentation") "o/r")] remote.

(** A checkout whose second document has a front matter that is no
    key/value block, and a remote that serves it. *)
Definition badCloned : node :=
  Dir [("o-r-main",
        Dir [("ok.md", File "fine");
             ("bad.md", File ("---" ++ nl ++ "no colon here" ++ nl ++ "---" ++ nl ++ "text"));
             ("later.md", File "never read")])].

Definition badEnv : Env :=
  yamlEnv [("bad", docsOf None "o/r")] (fun _ _ => (badCloned, None)).

(** A plain markdown file whose front matter is wrapped in a comment, and
    a checkout that holds it. *)
Definition wrappedBlock : string := "---" ++ nl ++ "title: A" ++ nl ++ "---".

Definition wrappedText : string :=
  "<!--" ++ nl ++ wrappedBlock ++ nl ++ "-->" ++ nl ++ "# Doc".

Definition wrappedTree : node :=
  Dir [("o-r-main", Dir [("docs", Dir [("vanilla.md", File wrappedText)])])].

End Example.

(* ================================================================== *)
(** ** Lemmas on strings *)

Section StringLemmas.

Lemma append_nil_r (s : string) : s ++ "" = s.
Proof. induction s; simpl; congruence. Qed.

Lemma append_assoc (a b c : string) : (a ++ b) ++ c = a ++ b ++ c.
Proof. induction a; simpl; congruence. Qed.

Lemma append_length (a b : string) :
  String.length (a ++ b) = String.length a + String.length b.
Proof. induction a; simpl; congruence. Qed.

Lemma append_inv_head (p a b : string) : p ++ a = p ++ b -> a = b.
Proof. induction p; simpl; intros H; [assumption | injection H; auto]. Qed.

Lemma startsWith_append (p r : string) : Str.startsWith p (p ++ r) = true.
Proof.
  induction p as [|c p IH]; simpl; [reflexivity|].
  now rewrite Ascii.eqb_refl.
Qed.

Lemma startsWith_inv (p s : string) :
  Str.startsWith p s = true -> exists r, s = p ++ r.
Proof.
  revert s; induction p as [|c p IH]; intros s H; simpl in *.
  - now exists s.
  - destruct s as [|d s]; [discriminate|].
    apply andb_true_iff in H as [Hc Hp].
    apply Ascii.eqb_eq in Hc; subst d.
    destruct (IH _ Hp) as [r ->]. now exists r.
Qed.

Lemma startsWith_length (p s : string) :
  Str.startsWith p s = true -> String.length p <= String.length s.
Proof.
  intros H. destruct (startsWith_inv _ _ H) as [r ->].
  rewrite append_length. lia.
Qed.

Lemma drop_append (p r : string) : Str.drop (String.length p) (p ++ r) = r.
Proof. induction p; simpl; auto. Qed.

Lemma indexOf_bound (p s : string) (i : nat) :
  Str.indexOf p s = Some i -> i + String.length p <= String.length s.
Proof.
  revert i; induction s as [|c s IH]; intros i; simpl.
  - destruct (Str.startsWith p "") eqn:Hs; [|discriminate].
    intros [= <-]. apply startsWith_length in Hs. simpl in *. lia.
  - destruct (Str.startsWith p (String c s)) eqn:Hs.
    + intros [= <-]. apply startsWith_length in Hs. simpl in *. lia.
    + destruct (Str.indexOf p s) as [j|]; simpl; [|discriminate].
      intros [= <-]. specialize (IH j eq_refl). lia.
Qed.

(** Removing the first occurrence of [p] from a string that starts with
    it strips the prefix. *)
Lemma removeFirst_prefix (p r : string) : Str.removeFirst p (p ++ r) = r.
Proof.
  unfold Str.removeFirst.
  assert (H : Str.indexOf p (p ++ r) = Some 0).
  { destruct (p ++ r) eqn:Hs; simpl; rewrite <- Hs, startsWith_append; reflexivity. }
  rewrite H. simpl. apply drop_append.
Qed.

(** A string shorter than [p] holds no occurrence of it. *)
Lemma removeFirst_short (p s : string) :
  String.length s < String.length p -> Str.removeFirst p s = s.
Proof.
  intros Hlen. unfold Str.removeFirst.
  destruct (Str.indexOf p s) as [i|] eqn:Hi; [|reflexivity].
  apply indexOf_bound in Hi. lia.
Qed.

Lemma split_not_nil (sep : ascii) (s : string) : Str.split sep s <> [].
Proof.
  destruct s as [|c s]; simpl; [discriminate|].
  destruct (Ascii.eqb c sep); [discriminate|].
  destruct (Str.split sep s); discriminate.
Qed.

Lemma split_append (sep : ascii) (a b : string) :
  Str.split sep (a ++ String sep b) = (Str.split sep a ++ Str.split sep b)%list.
Proof.
  induction a as [|c a IH]; simpl.
  - now rewrite Ascii.eqb_refl.
  - destruct (Ascii.eqb c sep); [now rewrite IH|].
    rewrite IH. pose proof (split_not_nil sep a) as Hn.
    destruct (Str.split sep a); [congruence | reflexivity].
Qed.

Lemma split_noSlash (s : string) : noSlash s = true -> Str.split "/" s = [s].
Proof.
  induction s as [|c s IH]; simpl; [reflexivity|].
  intros H. apply andb_true_iff in H as [Hc Hs].
  apply negb_true_iff in Hc. rewrite Hc, (IH Hs). reflexivity.
Qed.

Lemma noSlash_append_sep (a b : string) : noSlash (a ++ "/" ++ b) = false.
Proof.
  induction a as [|c a IH]; simpl; [reflexivity|].
  simpl in IH. now rewrite IH, andb_false_r.
Qed.

(** Two names without separator that are followed by the end or by a
    separator, and give the same string, are equal. *)
Lemma name_then_rest_inj (a b r1 r2 : string) :
  noSlash a = true -> noSlash b = true ->
  (r1 = "" \/ exists t, r1 = "/" ++ t) ->
  (r2 = "" \/ exists t, r2 = "/" ++ t) ->
  a ++ r1 = b ++ r2 -> a = b.
Proof.
  revert b; induction a as [|c a IH]; intros b Ha Hb H1 H2 Heq.
  - destruct b as [|d b]; [reflexivity|]. simpl in *.
    apply andb_true_iff in Hb as [Hd _]. apply negb_true_iff in Hd.
    destruct H1 as [-> | [t ->]]; [discriminate|].
    injection Heq as <- _. discriminate.
  - destruct b as [|d b]; simpl in *.
    + apply andb_true_iff in Ha as [Hc _]. apply negb_true_iff in Hc.
      destruct H2 as [-> | [t ->]]; [discriminate|].
      injection Heq as -> _. discriminate.
    + apply andb_true_iff in Ha as [_ Ha]. apply andb_true_iff in Hb as [_ Hb].
      injection Heq as -> Heq. f_equal. eauto.
Qed.

End StringLemmas.

(* ================================================================== *)
(** ** Lemmas on paths and trees *)

Section TreeLemmas.

(** Induction on trees, with the hypothesis for every child. *)
Lemma node_induction (P : node -> Prop) :
  (forall text, P (File text)) ->
  (forall entries, Forall (fun e => P (snd e)) entries -> P (Dir entries)) ->
  forall n, P n.
Proof.
  intros Hfile Hdir.
  fix IH 1. intros [text | entries].
  - apply Hfile.
  - apply Hdir. induction entries as [|[name child] rest IHrest].
    + constructor.
    + constructor; [apply IH | apply IHrest].
Qed.

Lemma wfTree_dir (entries : list (string * node)) :
  wfTree (Dir entries) ->
  NoDup (map fst entries) /\
  forall name child, In (name, child) entries ->
                     properName name = true /\ wfTree child.
Proof.
  simpl. intros [Hnd Heach]. split; [assumption|].
  clear Hnd. induction entries as [|e rest IH]; intros name child Hin.
  - destruct Hin.
  - destruct Heach as (Hname & Hwf & Hrest).
    destruct Hin as [-> | Hin]; [now split | now apply IH].
Qed.

Lemma depth_child (entries : list (string * node)) (name : string) (child : node) :
  In (name, child) entries -> depth child < depth (Dir entries).
Proof.
  simpl. induction entries as [|e rest IH]; intros Hin; [destruct Hin|].
  destruct Hin as [-> | Hin]; simpl; [lia|].
  specialize (IH Hin). lia.
Qed.

Lemma assoc_In {A : Type} (l : list (string * A)) (k : string) (v : A) :
  NoDup (map fst l) -> In (k, v) l -> assoc k l = Some v.
Proof.
  induction l as [|[k' v'] rest IH]; simpl; intros Hnd Hin; [destruct Hin|].
  inversion Hnd as [|? ? Hnotin Hnd']; subst.
  destruct Hin as [[= -> ->] | Hin].
  - now rewrite String.eqb_refl.
  - destruct (String.eqb_spec k' k) as [-> | _]; [|now apply IH].
    exfalso. apply Hnotin. now apply (in_map fst) in Hin.
Qed.

Lemma properName_noSlash (s : string) : properName s = true -> noSlash s = true.
Proof. unfold properName. intros H. now apply andb_true_iff in H as [_ H]. Qed.

Lemma step_proper (acc : list string) (name : string) :
  properName name = true -> step acc name = (acc ++ [name])%list.
Proof.
  unfold properName, step. intros H.
  repeat (apply andb_true_iff in H as [H ?]).
  apply negb_true_iff in H. rewrite H.
  repeat match goal with
         | Hn : negb _ = true |- _ => apply negb_true_iff in Hn; rewrite Hn
         end.
  reflexivity.
Qed.

Lemma steps_child (p name : string) :
  properName name = true -> steps (p ++ "/" ++ name) = (steps p ++ [name])%list.
Proof.
  intros H. unfold steps.
  change (p ++ "/" ++ name) with (p ++ String "/" name).
  rewrite split_append, (split_noSlash name (properName_noSlash _ H)).
  rewrite fold_left_app. simpl. now apply step_proper.
Qed.

Lemma walk_app (n : node) (a b : list string) :
  walk n (a ++ b) =
  match walk n a with Some m => walk m b | None => None end.
Proof.
  revert n; induction a as [|seg a IH]; intros n; simpl; [reflexivity|].
  destruct n as [text | entries]; [reflexivity|].
  destruct (assoc seg entries); [apply IH | reflexivity].
Qed.

(** The path [`${dir}/${name}`] resolves to the entry [name] of [dir]. *)
Lemma lookup_child (root : node) (p name : string) (entries : list (string * node)) :
  properName name = true ->
  lookup root p = Some (Dir entries) ->
  lookup root (p ++ "/" ++ name) = assoc name entries.
Proof.
  unfold lookup. intros Hname Hp.
  rewrite (steps_child _ _ Hname), walk_app, Hp. simpl.
  now destruct (assoc name entries).
Qed.

Lemma below_child (p name f : string) : below (p ++ "/" ++ name) f -> below p f.
Proof.
  intros [-> | [rest ->]]; right.
  - now exists name.
  - exists (name ++ "/" ++ rest). simpl. now rewrite !append_assoc.
Qed.

Lemma fileUnder_below (n : node) (p f : string) : fileUnder n p f -> below p f.
Proof.
  induction 1 as [text p | entries p name child f Hin Hunder IH].
  - now left.
  - now apply below_child in IH.
Qed.

(** Files below two entries of one directory differ. *)
Lemma below_siblings (p a b f : string) :
  noSlash a = true -> noSlash b = true ->
  below (p ++ "/" ++ a) f -> below (p ++ "/" ++ b) f -> a = b.
Proof.
  intros Ha Hb H1 H2.
  assert (Hform : forall c, below (p ++ "/" ++ c) f ->
            exists r, (r = "" \/ exists t, r = "/" ++ t) /\ f = p ++ "/" ++ c ++ r).
  { intros c [-> | [rest ->]].
    - exists "". split; [now left|]. now rewrite append_nil_r.
    - exists ("/" ++ rest). split; [right; now exists rest|].
      simpl. now rewrite !append_assoc. }
  destruct (Hform a H1) as (r1 & Hr1 & E1).
  destruct (Hform b H2) as (r2 & Hr2 & E2).
  rewrite E1 in E2. apply append_inv_head in E2. simpl in E2.
  injection E2 as E2. now apply (name_then_rest_inj a b r1 r2).
Qed.

End TreeLemmas.

(* ================================================================== *)
(** ** Lemmas on [crawl] *)

Section CrawlLemmas.

Variable root : node.
Variable filter : option regex.

Lemma crawl_file (fuel : nat) (p text : string) (files : list string) :
  lookup root p = Some (File text) ->
  crawl (S fuel) root p filter files =
  Ok (if accepts filter p then (files ++ [p])%list else files).
Proof.
  intros Hp. simpl. unfold lstatSync. rewrite Hp. simpl.
  unfold accepts. now destruct filter as [r|]; [destruct (test r p)|].
Qed.

Lemma crawl_dir (fuel : nat) (p : string) (entries : list (string * node))
      (files : list string) :
  lookup root p = Some (Dir entries) ->
  crawl (S fuel) root p filter files =
  foldOutcome (fun files filename => crawl fuel root (p ++ "/" ++ filename) filter files)
    (map fst entries) files.
Proof.
  intros Hp. simpl. unfold lstatSync, readdirSync. rewrite Hp. reflexivity.
Qed.

Lemma crawl_entries (fuel : nat) (p : string) (entries : list (string * node)) :
  lookup root p = Some (Dir entries) ->
  wfTree (Dir entries) ->
  Forall (fun e => forall p files fuel,
              wfTree (snd e) -> lookup root p = Some (snd e) ->
              depth (snd e) < fuel ->
              exists found, crawl fuel root p filter files = Ok (files ++ found)%list
                            /\ crawled filter (snd e) p found) entries ->
  depth (Dir entries) <= fuel ->
  forall l, incl l entries -> NoDup (map fst l) ->
  forall files,
  exists found,
    foldOutcome (fun files filename => crawl fuel root (p ++ "/" ++ filename) filter files)
      (map fst l) files = Ok (files ++ found)%list
    /\ NoDup found
    /\ forall f, In f found <->
                 (exists name child, In (name, child) l
                                     /\ fileUnder child (p ++ "/" ++ name) f)
                 /\ accepts filter f = true.
Proof.
  intros Hp Hwf IH Hfuel.
  destruct (wfTree_dir _ Hwf) as [Hnd Hentries].
  rewrite Forall_forall in IH.
  induction l as [|[name child] rest IHl]; intros Hincl Hndl files.
  - exists []. simpl. rewrite app_nil_r.
    split; [reflexivity|]. split; [constructor|].
    intros f. split; [intros [] | intros [(? & ? & [] & _) _]].
  - assert (Hin : In (name, child) entries) by (apply Hincl; now left).
    destruct (Hentries _ _ Hin) as [Hname Hwfc].
    assert (Hlook : lookup root (p ++ "/" ++ name) = Some child).
    { rewrite (lookup_child _ _ _ _ Hname Hp). now apply assoc_In. }
    pose proof (depth_child _ _ _ Hin) as Hdepth.
    destruct (IH _ Hin (p ++ "/" ++ name) files fuel Hwfc Hlook ltac:(simpl in *; lia))
      as (found1 & Hrun1 & Hnd1 & Hmem1).
    simpl in Hndl. inversion Hndl as [|? ? Hfresh Hndrest]; subst.
    destruct (IHl (fun e He => Hincl e (or_intror He)) Hndrest (files ++ found1)%list)
      as (found2 & Hrun2 & Hnd2 & Hmem2).
    exists (found1 ++ found2)%list. split; [|split].
    + simpl. simpl in Hrun1. rewrite Hrun1. simpl. simpl in Hrun2.
      rewrite Hrun2. now rewrite app_assoc.
    + apply NoDup_app; [assumption | assumption |].
      intros f Hf1 Hf2.
      apply Hmem1 in Hf1 as [Hu1 _].
      apply Hmem2 in Hf2 as [(name2 & child2 & Hin2 & Hu2) _].
      apply fileUnder_below in Hu1. apply fileUnder_below in Hu2.
      assert (Hname2 : properName name2 = true).
      { apply (Hentries name2 child2). apply Hincl. now right. }
      assert (name = name2).
      { apply (below_siblings p name name2 f); auto using properName_noSlash. }
      subst name2. apply Hfresh. now apply (in_map fst) in Hin2.
    + intros f. rewrite in_app_iff, Hmem1, Hmem2. split.
      * intros [[Hu Hacc] | [(name2 & child2 & Hin2 & Hu) Hacc]].
        -- split; [|assumption]. exists name, child. split; [now left | assumption].
        -- split; [|assumption]. exists name2, child2. split; [now right | assumption].
      * intros [(name2 & child2 & [[= <- <-] | Hin2] & Hu) Hacc].
        -- now left.
        -- right. split; [|assumption]. now exists name2, child2.
Qed.

(** With fuel beyond the depth of the tree, [crawl] returns, and adds the
    accepted files of the tree, each once. *)
Lemma crawl_complete (n : node) :
  forall p files fuel,
    wfTree n -> lookup root p = Some n -> depth n < fuel ->
    exists found, crawl fuel root p filter files = Ok (files ++ found)%list
                  /\ crawled filter n p found.
Proof.
  induction n as [text | entries IH] using node_induction;
    intros p files fuel Hwf Hp Hfuel.
  - destruct fuel as [|fuel]; [lia|].
    rewrite (crawl_file _ _ _ _ Hp).
    destruct (accepts filter p) eqn:Hacc.
    + exists [p]. split; [reflexivity|]. split.
      * repeat constructor. intros [].
      * intros f. split.
        -- intros [<- | []]. split; [constructor | assumption].
        -- intros [Hu _]. inversion Hu; subst. now left.
    + exists []. rewrite app_nil_r. split; [reflexivity|]. split.
      * constructor.
      * intros f. split; [intros [] |].
        intros [Hu Hf]. inversion Hu; subst. congruence.
  - destruct fuel as [|fuel]; [lia|].
    rewrite (crawl_dir _ _ _ _ Hp).
    destruct (crawl_entries fuel p entries Hp Hwf IH ltac:(lia) entries
                (incl_refl _) (proj1 (wfTree_dir _ Hwf)) files)
      as (found & Hrun & Hnd & Hmem).
    exists found. split; [assumption|]. split; [assumption|].
    intros f. rewrite Hmem. split.
    + intros [(name & child & Hin & Hu) Hacc]. split; [|assumption].
      now apply (under_dir entries p name child).
    + intros [Hu Hacc]. split; [|assumption].
      inversion Hu; subst. eauto.
Qed.

(** Without any assumption on the tree: what a returning [crawl] pushed is
    accepted by the filter, is [dir] or below it, and is a regular file. *)
Lemma crawl_sound (fuel : nat) :
  forall p files files',
    crawl fuel root p filter files = Ok files' ->
    forall f, In f files' ->
              In f files \/
              (accepts filter f = true /\ below p f
               /\ exists text, lookup root f = Some (File text)).
Proof.
  induction fuel as [|fuel IH]; intros p files files' Hrun f Hf; [discriminate|].
  simpl in Hrun. unfold lstatSync in Hrun.
  destruct (lookup root p) as [[text | entries]|] eqn:Hp; simpl in Hrun;
    [| |discriminate].
  - fold (accepts filter p) in Hrun.
    destruct (accepts filter p) eqn:Hacc; injection Hrun as <-; [|now left].
    apply in_app_iff in Hf as [Hf | [<- | []]]; [now left|].
    right. split; [assumption|]. split; [now left | now exists text].
  - unfold readdirSync in Hrun. rewrite Hp in Hrun. simpl in Hrun.
    revert files Hrun. generalize (map fst entries) as names.
    induction names as [|name names IHn]; intros files Hrun; simpl in Hrun.
    + injection Hrun as <-. now left.
    + destruct (crawl fuel root (p ++ String "/" name) filter files)
        as [files1| |] eqn:H1; simpl in Hrun; try discriminate.
      change (p ++ String "/" name) with (p ++ "/" ++ name) in H1.
      destruct (IHn _ Hrun) as [Hin1 | Hnew]; [|now right].
      destruct (IH _ _ _ H1 f Hin1) as [Hin | (Hacc & Hbelow & Hfile)]; [now left|].
      right. split; [assumption|]. split; [now apply below_child in Hbelow | assumption].
Qed.

End CrawlLemmas.

(* ================================================================== *)
(** ** Lemmas on [MARKDOWN_REGEX] and on paths of documents *)

Section MarkdownLemmas.

Lemma matchAt_markdown (i : nat) (s : string) :
  matchAt MARKDOWN_REGEX i s = if isExt s then Some (i + String.length s) else None.
Proof.
  unfold matchAt, MARKDOWN_REGEX, isExt, Lit1. cbn -[Ascii.eqb].
  destruct s as [|c1 s]; cbn -[Ascii.eqb]; [reflexivity|].
  rewrite (Ascii.eqb_sym c1).
  destruct (Ascii.eqb "." c1); cbn -[Ascii.eqb]; [|reflexivity].
  destruct s as [|c2 s]; cbn -[Ascii.eqb]; [reflexivity|].
  rewrite (Ascii.eqb_sym c2).
  destruct (Ascii.eqb "m" c2); cbn -[Ascii.eqb]; [|reflexivity].
  destruct s as [|c3 s]; cbn -[Ascii.eqb]; [reflexivity|].
  rewrite (Ascii.eqb_sym c3).
  destruct (Ascii.eqb "d" c3); cbn -[Ascii.eqb]; [|reflexivity].
  destruct s as [|c4 s]; cbn -[Ascii.eqb]; [f_equal; lia|].
  rewrite (Ascii.eqb_sym c4).
  destruct (Ascii.eqb "x" c4); cbn -[Ascii.eqb]; [|reflexivity].
  destruct s as [|c5 s]; cbn -[Ascii.eqb]; [f_equal; lia | reflexivity].
Qed.

Lemma search_markdown (s : string) :
  forall i, search MARKDOWN_REGEX i s =
            option_map (fun k => (i + k, i + String.length s)) (extStart s).
Proof.
  induction s as [|c s IH]; intros i.
  - reflexivity.
  - cbn [search extStart]. rewrite matchAt_markdown.
    destruct (isExt (String c s)); [simpl; now rewrite Nat.add_0_r|].
    rewrite IH. destruct (extStart s) as [k|]; simpl; [|reflexivity].
    do 2 f_equal; lia.
Qed.

Lemma test_markdown (s : string) : test MARKDOWN_REGEX s = hasExt s.
Proof.
  unfold test. rewrite search_markdown.
  induction s as [|c s IH]; [reflexivity|].
  cbn [extStart hasExt]. destruct (isExt (String c s)); [reflexivity|].
  simpl. rewrite <- IH. now destruct (extStart s).
Qed.

Lemma drop_all (s : string) : Str.drop (String.length s) s = "".
Proof. induction s; simpl; auto. Qed.

Lemma removeFirst_markdown (s : string) : removeFirst MARKDOWN_REGEX s = dropExt s.
Proof.
  unfold removeFirst. rewrite search_markdown.
  induction s as [|c s IH]; [reflexivity|].
  cbn [extStart dropExt]. destruct (isExt (String c s)) eqn:Hext.
  - cbn [option_map Nat.add Str.take]. now rewrite drop_all.
  - destruct (extStart s) as [k|]; cbn [option_map Nat.add] in *.
    + cbn [Str.take Str.drop String.length]. simpl. now rewrite <- IH.
    + now rewrite <- IH.
Qed.

Lemma isExt_noSlash (s : string) : isExt s = true -> noSlash s = true.
Proof.
  unfold isExt. intros H. apply orb_true_iff in H as [H | H];
    apply String.eqb_eq in H; subst; reflexivity.
Qed.

Lemma isExt_dropExt (s : string) : isExt s = true -> dropExt s = "".
Proof. intros H. destruct s; simpl; [reflexivity | now rewrite H]. Qed.

Lemma split_single (sep : ascii) (s h : string) : Str.split sep s = [h] -> h = s.
Proof.
  revert h; induction s as [|c s IH]; intros h; simpl.
  - now intros [= <-].
  - destruct (Ascii.eqb c sep).
    + pose proof (split_not_nil sep s). destruct (Str.split sep s); congruence.
    + pose proof (split_not_nil sep s).
      destruct (Str.split sep s) as [|h' t]; [congruence|].
      intros [= <- ->]. now rewrite (IH h' eq_refl).
Qed.

(** Dropping the extension and then splitting is splitting and then
    dropping the extension of the last segment. *)
Lemma split_dropExt (s : string) :
  Str.split "/" (dropExt s) = mapLast dropExt (Str.split "/" s).
Proof.
  induction s as [|c s IH]; [reflexivity|].
  destruct (isExt (String c s)) eqn:Hext.
  - rewrite (isExt_dropExt _ Hext), (split_noSlash _ (isExt_noSlash _ Hext)).
    cbn [mapLast]. now rewrite (isExt_dropExt _ Hext).
  - cbn [dropExt]. rewrite Hext. cbn [Str.split].
    destruct (Ascii.eqb c "/").
    + rewrite IH. pose proof (split_not_nil "/" s).
      destruct (Str.split "/" s); [congruence | reflexivity].
    + rewrite IH. destruct (Str.split "/" s) as [|h [|h2 t]] eqn:Hs.
      * now apply split_not_nil in Hs.
      * apply split_single in Hs. subst h. cbn [mapLast dropExt].
        now rewrite Hext.
      * reflexivity.
Qed.

Lemma hasExt_below (p r : string) : hasExt (p ++ "/" ++ r) = hasExt r.
Proof.
  induction p as [|c p IH].
  - reflexivity.
  - change (String c p ++ "/" ++ r) with (String c (p ++ "/" ++ r)).
    cbn [hasExt]. rewrite IH.
    destruct (isExt (String c (p ++ "/" ++ r))) eqn:Hext; [|reflexivity].
    apply isExt_noSlash in Hext.
    change (String c (p ++ "/" ++ r)) with (String c p ++ "/" ++ r) in Hext.
    now rewrite noSlash_append_sep in Hext.
Qed.

Lemma dropExt_md (b : string) : dropExt (b ++ ".md") = b.
Proof.
  induction b as [|c b IH]; [reflexivity|].
  cbn [append dropExt]. rewrite IH.
  destruct (isExt (String c (b ++ ".md"))) eqn:Hext; [|reflexivity].
  exfalso. unfold isExt in Hext.
  apply orb_true_iff in Hext as [H | H]; apply String.eqb_eq in H;
    pose proof (f_equal String.length H) as Hlen; simpl in Hlen;
    rewrite append_length in Hlen; simpl in Hlen; try lia.
  destruct b; [discriminate | simpl in Hlen; lia].
Qed.

Lemma dropExt_mdx (b : string) : dropExt (b ++ ".mdx") = b.
Proof.
  induction b as [|c b IH]; [reflexivity|].
  cbn [append dropExt]. rewrite IH.
  destruct (isExt (String c (b ++ ".mdx"))) eqn:Hext; [|reflexivity].
  exfalso. unfold isExt in Hext.
  apply orb_true_iff in Hext as [H | H]; apply String.eqb_eq in H;
    pose proof (f_equal String.length H) as Hlen; simpl in Hlen;
    rewrite append_length in Hlen; simpl in Hlen; lia.
Qed.

(** On a path that is [entry] or below it, removing the first occurrence
    of [entry/] strips that prefix. *)
Lemma docPath_below (entry file : string) :
  below entry file ->
  docPath entry file = stripPrefix (entry ++ "/") file
  /\ (file = entry /\ docPath entry file = file
      \/ file = entry ++ "/" ++ docPath entry file).
Proof.
  unfold docPath, stripPrefix. intros [-> | [rest ->]].
  - assert (Hlen : String.length entry < String.length (entry ++ "/")).
    { rewrite append_length. simpl. lia. }
    rewrite (removeFirst_short _ _ Hlen).
    destruct (Str.startsWith (entry ++ "/") entry) eqn:Hs.
    + apply startsWith_length in Hs. lia.
    + split; [reflexivity | left; split; reflexivity].
  - rewrite <- append_assoc, removeFirst_prefix, startsWith_append, drop_append.
    split; [reflexivity | right; now rewrite append_assoc].
Qed.

Lemma hasExt_iff (s : string) :
  hasExt s = true <-> exists b, s = b ++ ".md" \/ s = b ++ ".mdx".
Proof.
  split.
  - induction s as [|c s IH]; [discriminate|].
    cbn [hasExt]. intros H. apply orb_true_iff in H as [H | H].
    + exists "". unfold isExt in H. apply orb_true_iff in H as [H | H];
        apply String.eqb_eq in H; [now left | now right].
    + destruct (IH H) as [b [-> | ->]]; exists (String c b); [now left | now right].
  - intros [b Hb]. revert s Hb. induction b as [|c b IH]; intros s [-> | ->].
    + reflexivity.
    + reflexivity.
    + change (String c b ++ ".md") with (String c (b ++ ".md")). cbn [hasExt].
      rewrite (IH (b ++ ".md")) by (now left). apply orb_true_r.
    + change (String c b ++ ".mdx") with (String c (b ++ ".mdx")). cbn [hasExt].
      rewrite (IH (b ++ ".mdx")) by (now right). apply orb_true_r.
Qed.

Lemma dropExt_none (s : string) : hasExt s = false -> dropExt s = s.
Proof.
  induction s as [|c s IH]; [reflexivity|].
  cbn [hasExt dropExt]. intros H. apply orb_false_iff in H as [Hext Hs].
  now rewrite Hext, (IH Hs).
Qed.

End MarkdownLemmas.

(* ================================================================== *)
(** ** Lemmas on the docs map *)

Section MapLemmas.

Context {V : Type}.

Lemma assoc_mapSet_same (k : string) (v : V) (m : list (string * V)) :
  assoc k (mapSet k v m) = Some v.
Proof.
  induction m as [|[k' v'] rest IH]; simpl.
  - now rewrite String.eqb_refl.
  - destruct (String.eqb k' k) eqn:Hk; simpl.
    + now rewrite String.eqb_refl.
    + now rewrite Hk.
Qed.

Lemma assoc_mapSet_other (k k0 : string) (v : V) (m : list (string * V)) :
  k0 <> k -> assoc k0 (mapSet k v m) = assoc k0 m.
Proof.
  intros Hne. induction m as [|[k' v'] rest IH]; simpl.
  - destruct (String.eqb_spec k k0); [congruence | reflexivity].
  - destruct (String.eqb_spec k' k) as [-> | Hk]; simpl.
    + destruct (String.eqb_spec k k0); [congruence | reflexivity].
    + now rewrite IH.
Qed.

Lemma in_mapSet (k : string) (v : V) (m : list (string * V)) (e : string * V) :
  In e (mapSet k v m) -> e = (k, v) \/ In e m.
Proof.
  induction m as [|[k' v'] rest IH]; simpl.
  - intros [<- | []]. now left.
  - destruct (String.eqb k' k); simpl.
    + intros [<- | Hin]; [now left | now right; right].
    + intros [<- | Hin]; [now right; left|].
      destruct (IH Hin); [now left | now right; right].
Qed.

Lemma keys_mapSet (k : string) (v : V) (m : list (string * V)) (k0 : string) :
  In k0 (map fst (mapSet k v m)) -> k0 = k \/ In k0 (map fst m).
Proof.
  intros Hin. apply in_map_iff in Hin as ([k1 v1] & <- & Hin).
  apply in_mapSet in Hin as [[= -> ->] | Hin]; [now left|].
  right. now apply (in_map fst) in Hin.
Qed.

Lemma NoDup_mapSet (k : string) (v : V) (m : list (string * V)) :
  NoDup (map fst m) -> NoDup (map fst (mapSet k v m)).
Proof.
  induction m as [|[k' v'] rest IH]; simpl; intros Hnd.
  - repeat constructor. intros [].
  - inversion Hnd as [|? ? Hfresh Hrest]; subst.
    destruct (String.eqb_spec k' k) as [-> | Hk]; simpl.
    + now constructor.
    + constructor; [|now apply IH].
      intros Hin. apply keys_mapSet in Hin as [-> | Hin]; congruence.
Qed.

(** In a map without duplicate keys the entry of a key is the only one. *)
Lemma one_entry (k : string) (v : V) (m : list (string * V)) :
  NoDup (map fst m) -> assoc k m = Some v ->
  filter (fun e => String.eqb (fst e) k) m = [(k, v)].
Proof.
  induction m as [|[k' v'] rest IH]; simpl; intros Hnd Hk; [discriminate|].
  inversion Hnd as [|? ? Hfresh Hrest]; subst.
  destruct (String.eqb_spec k' k) as [-> | Hne].
  - injection Hk as ->. f_equal.
    clear IH Hrest Hnd. induction rest as [|[k1 v1] rest IH]; simpl; [reflexivity|].
    destruct (String.eqb_spec k1 k) as [-> | _].
    + exfalso. apply Hfresh. now left.
    + apply IH. intros Hin. apply Hfresh. now right.
  - now apply IH.
Qed.

Lemma assoc_Some_In (k : string) (v : V) (m : list (string * V)) :
  assoc k m = Some v -> In (k, v) m.
Proof.
  induction m as [|[k' v'] rest IH]; simpl; [discriminate|].
  destruct (String.eqb_spec k' k) as [-> | _].
  - intros [= ->]. now left.
  - intros H. right. now apply IH.
Qed.

End MapLemmas.

Lemma foldOutcome_app {A B : Type} (f : A -> B -> Outcome A) (l1 l2 : list B) (a : A) :
  foldOutcome f (l1 ++ l2) a = (a' <- foldOutcome f l1 a ;; foldOutcome f l2 a').
Proof.
  revert a; induction l1 as [|x l1 IH]; intros a; simpl; [reflexivity|].
  destruct (f a x); simpl; auto.
Qed.

(** A loop body that agrees with another one wherever that one returns or
    throws gives the same loop wherever that loop returns or throws. *)
Lemma foldOutcome_settled {A B : Type} (f g : A -> B -> Outcome A) (l : list B) :
  (forall a x r, f a x = r -> r <> OutOfFuel -> g a x = r) ->
  forall a r, foldOutcome f l a = r -> r <> OutOfFuel -> foldOutcome g l a = r.
Proof.
  intros Hfg. induction l as [|x l IH]; intros a r Hrun Hr; simpl in *; [assumption|].
  destruct (f a x) as [a'| e |] eqn:Hf; simpl in Hrun.
  - rewrite (Hfg a x (Ok a') Hf) by discriminate. simpl. now apply IH.
  - rewrite (Hfg a x (Throw e) Hf) by discriminate. assumption.
  - congruence.
Qed.

Lemma crawl_step (root : node) (filter : option regex) (fuel : nat)
      (p : string) (files : list string) :
  crawl (S fuel) root p filter files =
  (st <- lstatSync root p ;;
   if isDirectory st then
     filenames <- readdirSync root p ;;
     foldOutcome
       (fun files filename => crawl fuel root (p ++ "/" ++ filename) filter files)
       filenames files
   else if accepts filter p then Ok (files ++ [p])%list
   else Ok files).
Proof. reflexivity. Qed.

(** More fuel does not change what [crawl] returned or threw. *)
Lemma crawl_fuel_mono (root : node) (filter : option regex) (fuel : nat) :
  forall p files r,
    crawl fuel root p filter files = r -> r <> OutOfFuel ->
    crawl (S fuel) root p filter files = r.
Proof.
  induction fuel as [|fuel IH]; intros p files r Hrun Hr; [simpl in Hrun; congruence|].
  rewrite crawl_step in Hrun. rewrite crawl_step.
  destruct (lstatSync root p) as [st| e |]; simpl in *; try assumption.
  destruct (isDirectory st); [|assumption].
  destruct (readdirSync root p) as [names| e |]; simpl in *; try assumption.
  apply (foldOutcome_settled
           (fun files filename => crawl fuel root (p ++ "/" ++ filename) filter files));
    [|assumption|assumption].
  intros a x r0. apply IH.
Qed.

(* ================================================================== *)
(** ** Lemmas on [getDocs] *)

Section DocsLemmas.

Variable E : Env.

Variables (lib : string) (params : Params) (root : node).

Lemma parseDoc_fields (file : string) (d : Doc (Data E)) :
  parseDoc E lib params root file = Ok d ->
  path d = docPath (entry params) file /\ slug d = docSlug lib (path d).
Proof.
  unfold parseDoc. destruct (readFileSync root file); simpl; try discriminate.
  destruct (matter E a); simpl; try discriminate.
  intros [= <-]. now split.
Qed.

Lemma addDoc_inv (docs docs' : DocMap (Data E)) (file : string) :
  addDoc E lib params root docs file = Ok docs' ->
  exists d, parseDoc E lib params root file = Ok d
            /\ docs' = mapSet (docKey d) d docs.
Proof.
  unfold addDoc. destruct (parseDoc E lib params root file) as [d| |];
    simpl; try discriminate.
  intros [= <-]. now exists d.
Qed.

Lemma build_invariant (files : list string) :
  forall seen docs docs',
    docsInvariant E lib params root seen docs ->
    foldOutcome (addDoc E lib params root) files docs = Ok docs' ->
    docsInvariant E lib params root (seen ++ files) docs'.
Proof.
  induction files as [|file files IH]; intros seen docs docs' Hinv Hrun; simpl in Hrun.
  - injection Hrun as <-. now rewrite app_nil_r.
  - destruct (addDoc E lib params root docs file) as [docs1| |] eqn:Hadd;
      simpl in Hrun; try discriminate.
    destruct (addDoc_inv _ _ _ Hadd) as (d & Hparse & ->).
    replace (seen ++ file :: files)%list with ((seen ++ [file]) ++ files)%list
      by (now rewrite <- app_assoc).
    refine (IH _ _ _ _ Hrun).
    destruct Hinv as [Hnd Hentries]. split; [now apply NoDup_mapSet|].
    intros k d0 Hin. apply in_mapSet in Hin as [[= -> ->] | Hin].
    + split; [reflexivity|]. exists file. split; [|assumption].
      apply in_app_iff. right. now left.
    + destruct (Hentries _ _ Hin) as (Hk & f & Hf & Hp).
      split; [assumption|]. exists f. split; [|assumption].
      apply in_app_iff. now left.
Qed.

(** Files whose documents have another key leave the entry of a key alone. *)
Lemma build_other_keys (k : string) (files : list string) :
  forall docs docs',
    (forall file d, In file files -> parseDoc E lib params root file = Ok d ->
                    docKey d <> k) ->
    foldOutcome (addDoc E lib params root) files docs = Ok docs' ->
    assoc k docs' = assoc k docs.
Proof.
  induction files as [|file files IH]; intros docs docs' Hother Hrun; simpl in Hrun.
  - now injection Hrun as <-.
  - destruct (addDoc E lib params root docs file) as [docs1| |] eqn:Hadd;
      simpl in Hrun; try discriminate.
    destruct (addDoc_inv _ _ _ Hadd) as (d & Hparse & ->).
    rewrite (IH _ _ (fun f d0 Hf => Hother f d0 (or_intror Hf)) Hrun).
    apply assoc_mapSet_other. intros ->.
    now apply (Hother file d (or_introl eq_refl) Hparse).
Qed.

(** The document of the last file with a given key is the one the map
    holds under that key. *)
Lemma build_last_wins (pre post : list string) (file : string)
      (d : Doc (Data E)) (docs' : DocMap (Data E)) :
  foldOutcome (addDoc E lib params root) (pre ++ file :: post) [] = Ok docs' ->
  parseDoc E lib params root file = Ok d ->
  (forall f d', In f post -> parseDoc E lib params root f = Ok d' ->
                docKey d' <> docKey d) ->
  assoc (docKey d) docs' = Some d.
Proof.
  intros Hrun Hparse Hlast. rewrite foldOutcome_app in Hrun.
  destruct (foldOutcome (addDoc E lib params root) pre []) as [docs1| |];
    simpl in Hrun; try discriminate.
  unfold addDoc at 1 in Hrun. rewrite Hparse in Hrun. simpl in Hrun.
  rewrite (build_other_keys _ _ _ _ Hlast Hrun).
  apply assoc_mapSet_same.
Qed.

(** When every file can be read and parsed, the loop returns. *)
Lemma build_total (files : list string) :
  (forall file, In file files -> exists d, parseDoc E lib params root file = Ok d) ->
  forall docs, exists docs',
      foldOutcome (addDoc E lib params root) files docs = Ok docs'.
Proof.
  induction files as [|file files IH]; intros Hok docs; simpl.
  - now exists docs.
  - destruct (Hok file (or_introl eq_refl)) as [d Hd].
    unfold addDoc at 1. rewrite Hd. simpl.
    apply IH. intros f Hf. apply Hok. now right.
Qed.

End DocsLemmas.

Section GetDocsLemmas.

Variable E : Env.

Lemma unspecified_Some (lib : string) : lib <> "" -> unspecified (Some lib) = false.
Proof. destruct lib; [congruence | reflexivity]. Qed.

(** The single-library path of [getDocs]. *)
Lemma getDocs_lib (fuel : nat) (lib : string) (w : World) :
  lib <> "" ->
  getDocs E (S fuel) (Some lib) w =
  match getParams E lib with
  | None => (w, Ok Absent)
  | Some params =>
      let (w1, cloned) := clone E params w in
      (w1, _ <- cloned ;;
           files <- crawl fuel (fs w1) (entry params) (Some MARKDOWN_REGEX) [] ;;
           docs <- foldOutcome (addDoc E lib params (fs w1)) files [] ;;
           Ok (LibDocs docs))
  end.
Proof.
  intros Hlib. unfold getDocs. cbn [start].
  rewrite (unspecified_Some _ Hlib). cbn [orDefault].
  destruct (getParams E lib) as [params|]; [|reflexivity].
  now destruct (clone E params w).
Qed.

(** The all-libraries path of [getDocs]: every call is started, then every
    call is resumed on the file system all of them left. *)
Lemma getDocs_all (fuel : nat) (w : World) :
  getDocs E (S fuel) None w =
  let (w', children) := startAll (start E fuel) (map fst (libs E)) w in
  (w', docs <- promiseAll (map (resume E fuel (fs w')) children) ;;
       Ok (AllDocs (flat_map (valuesOf E) (filter (truthy E) docs)))).
Proof.
  unfold getDocs. cbn [start unspecified].
  now destruct (startAll (start E fuel) (map fst (libs E)) w).
Qed.

Lemma clone_log (params : Params) (w : World) :
  clones (fst (clone E params w)) = (clones w ++ [cloneRequest params])%list.
Proof. unfold clone. now destruct (gitClone E w (cloneRequest params)). Qed.

(** A call for one configured library logs exactly one clone, whatever
    happens afterwards. *)
Lemma getDocs_lib_log (fuel : nat) (lib : string) (params : Params) (w : World) :
  lib <> "" -> getParams E lib = Some params ->
  clones (fst (getDocs E (S fuel) (Some lib) w)) =
  (clones w ++ [cloneRequest params])%list.
Proof.
  intros Hlib Hp. rewrite (getDocs_lib _ _ _ Hlib), Hp.
  rewrite <- clone_log. now destruct (clone E params w).
Qed.

(** What a docs map returned by [getDocs] was built from. *)
Lemma getDocs_lib_inv (fuel : nat) (lib : string) (w w' : World) (m : DocMap (Data E)) :
  getDocs E fuel (Some lib) w = (w', Ok (LibDocs m)) ->
  exists fuel' params files,
    fuel = S fuel' /\ lib <> "" /\ getParams E lib = Some params
    /\ clone E params w = (w', Ok tt)
    /\ crawl fuel' (fs w') (entry params) (Some MARKDOWN_REGEX) [] = Ok files
    /\ foldOutcome (addDoc E lib params (fs w')) files [] = Ok m.
Proof.
  destruct fuel as [|fuel]; [discriminate|].
  destruct lib as [|c lib].
  - unfold getDocs. cbn [start unspecified isEmpty].
    destruct (startAll (start E fuel) (map fst (libs E)) w) as [w1 children].
    cbn [resume pred].
    destruct (promiseAll (map (resume E fuel (fs w1)) children)); simpl; discriminate.
  - rewrite getDocs_lib by discriminate.
    destruct (getParams E (String c lib)) as [params|]; [|discriminate].
    destruct (clone E params w) as [w1 cloned] eqn:Hclone.
    intros [= -> Hrun].
    destruct cloned as [[]| |]; simpl in Hrun; try discriminate.
    destruct (crawl fuel (fs w') (entry params) (Some MARKDOWN_REGEX) [])
      as [files| |] eqn:Hcrawl; simpl in Hrun; try discriminate.
    destruct (foldOutcome (addDoc E (String c lib) params (fs w')) files [])
      as [docs| |] eqn:Hbuild; simpl in Hrun; try discriminate.
    injection Hrun as <-.
    exists fuel, params, files. repeat split; auto. discriminate.
Qed.

(** More fuel does not change what a call for one library returned or
    threw, nor the world it left. *)
Lemma getDocs_lib_fuel_mono (fuel : nat) (lib : string) (w w' : World)
      (r : Outcome (DocsResult (Data E))) :
  lib <> "" ->
  getDocs E (S fuel) (Some lib) w = (w', r) -> r <> OutOfFuel ->
  getDocs E (S (S fuel)) (Some lib) w = (w', r).
Proof.
  intros Hlib. rewrite !(getDocs_lib _ _ _ Hlib).
  destruct (getParams E lib) as [params|]; [|auto].
  destruct (clone E params w) as [w1 cloned].
  intros [= -> Hrun] Hr. f_equal.
  destruct cloned as [[]| e |]; cbn [bind] in *; try assumption.
  destruct (crawl fuel (fs w') (entry params) (Some MARKDOWN_REGEX) [])
    as [files| e |] eqn:Hcrawl.
  - now rewrite (crawl_fuel_mono _ _ _ _ _ _ Hcrawl) by discriminate.
  - now rewrite (crawl_fuel_mono _ _ _ _ _ _ Hcrawl) by discriminate.
  - cbn [bind] in Hrun. congruence.
Qed.

Lemma build_parsed (lib : string) (params : Params) (root : node) (files : list string) :
  forall docs docs',
    foldOutcome (addDoc E lib params root) files docs = Ok docs' ->
    forall file, In file files -> exists d, parseDoc E lib params root file = Ok d.
Proof.
  induction files as [|f files IH]; intros docs docs' Hrun file Hin; [destruct Hin|].
  simpl in Hrun.
  destruct (addDoc E lib params root docs f) as [docs1| |] eqn:Hadd;
    simpl in Hrun; try discriminate.
  destruct Hin as [<- | Hin]; [|now apply (IH _ _ Hrun)].
  destruct (addDoc_inv _ _ _ _ _ _ _ Hadd) as (d & Hd & _). now exists d.
Qed.

(** Enough fuel makes [getDocs] return the docs map of a configured
    library, when the clone succeeds, leaves a well-formed tree at the
    entry path, and every front matter parses. *)
Lemma getDocs_returns (lib : string) (params : Params) (w : World)
      (cloned n : node) :
  lib <> "" -> getParams E lib = Some params ->
  gitClone E w (cloneRequest params) = (cloned, None) ->
  lookup cloned (entry params) = Some n -> wfTree n ->
  (forall file text, lookup cloned file = Some (File text) ->
                     exists r, matter E text = Ok r) ->
  forall fuel, depth n < fuel ->
  exists m,
    getDocs E (S fuel) (Some lib) w =
    ({| fs := cloned; clones := (clones w ++ [cloneRequest params])%list |},
     Ok (LibDocs m)).
Proof.
  intros Hlib Hp Hclone Hentry Hwf Hparse fuel Hfuel.
  rewrite (getDocs_lib _ _ _ Hlib), Hp. unfold clone. rewrite Hclone. simpl.
  destruct (crawl_complete cloned (Some MARKDOWN_REGEX) n (entry params) [] fuel
              Hwf Hentry Hfuel) as (files & Hcrawl & _).
  simpl in Hcrawl. rewrite Hcrawl. simpl.
  destruct (build_total E lib params cloned files) with (docs := @nil (string * Doc (Data E)))
    as [m Hm].
  - intros file Hin.
    destruct (crawl_sound cloned (Some MARKDOWN_REGEX) fuel _ _ _ Hcrawl file Hin)
      as [[] | (_ & _ & text & Hfile)].
    unfold parseDoc, readFileSync. rewrite Hfile. simpl.
    destruct (Hparse _ _ Hfile) as [r ->]. simpl. eauto.
  - exists m. now rewrite Hm.
Qed.

Lemma promiseAll_ok {A : Type} (l : list (Outcome A)) :
  (forall o, In o l -> exists r, o = Ok r) ->
  exists rs, promiseAll l = Ok rs /\ l = map Ok rs.
Proof.
  induction l as [|o l IH]; intros Hall; simpl.
  - now exists [].
  - destruct (Hall o (or_introl eq_refl)) as [r ->].
    destruct (IH (fun o' Ho => Hall o' (or_intror Ho))) as (rs & -> & ->).
    now exists (r :: rs).
Qed.

Lemma promiseAll_throw {A : Type} (l : list (Outcome A)) (e : Error) :
  In (Throw e) l -> ~ In OutOfFuel l -> exists e', promiseAll l = Throw e'.
Proof.
  induction l as [|o l IH]; intros Hin Hfuel; [destruct Hin|]. simpl.
  destruct o as [a|e0|].
  - destruct Hin as [Hin | Hin]; [discriminate|]. simpl.
    destruct (IH Hin (fun H => Hfuel (or_intror H))) as [e' ->]. now exists e'.
  - now exists e0.
  - exfalso. apply Hfuel. now left.
Qed.

End GetDocsLemmas.

(* ================================================================== *)
(** ** Properties of the specification *)

Import Example.

Ltac fresh_names :=
  repeat constructor; simpl; intuition discriminate.

Lemma repoTree_wf : wfTree repoTree.
Proof. simpl. repeat split; fresh_names. Defined.

(** C4. On a well-formed (finite, acyclic) tree [n] found at [dir], and for
    every filter (a regular expression without the g and y flags, or none),
    [crawl] returns with any fuel beyond the depth of the tree; the list
    holds each file of the tree whose path the filter matches, every file
    when there is no filter, no other path, and nothing twice.  For
    [MARKDOWN_REGEX] these are the files whose path ends with [.md] or
    [.mdx].  When [dir] is not a directory the list is [[dir]] if the
    filter matches it or there is no filter, and is empty otherwise. *)
Theorem crawl_complete_duplicate_free
        (root n : node) (dir : string) (filter : option regex) (fuel : nat) :
  wfTree n -> lookup root dir = Some n -> depth n < fuel ->
  exists files,
    crawl fuel root dir filter [] = Ok files
    /\ NoDup files
    /\ (forall f, In f files <->
                  fileUnder n dir f
                  /\ match filter with
                     | None => True
                     | Some r => test r f = true
                     end)
    /\ (filter = Some MARKDOWN_REGEX ->
        forall f, In f files <->
                  fileUnder n dir f /\ exists b, f = b ++ ".md" \/ f = b ++ ".mdx")
    /\ (isDirectory n = false ->
        match filter with
        | None => files = [dir]
        | Some r => files = if test r dir then [dir] else []
        end).
Proof.
  intros Hwf Hdir Hfuel.
  destruct (crawl_complete root filter n dir [] fuel Hwf Hdir Hfuel)
    as (files & Hrun & Hnd & Hmem).
  exists files. simpl in Hrun.
  assert (Hmatch : forall f, In f files <->
            fileUnder n dir f
            /\ match filter with None => True | Some r => test r f = true end).
  { intros f. rewrite Hmem. unfold accepts. destruct filter; [reflexivity|].
    split; intros [Hu _]; now split. }
  split; [assumption|]. split; [assumption|]. split; [exact Hmatch|]. split.
  - intros -> f. rewrite Hmatch, test_markdown, hasExt_iff. reflexivity.
  - intros Hfile. destruct n as [text | entries]; [|discriminate].
    destruct fuel as [|fuel]; [lia|].
    rewrite (crawl_file root filter fuel dir text [] Hdir) in Hrun.
    injection Hrun as <-. unfold accepts. destruct filter as [r|]; [|reflexivity].
    now destruct (test r dir).
Qed.

Lemma crawl_complete_duplicate_free_witness :
  wfTree repoTree /\ lookup cloned "/o-r-main" = Some repoTree
  /\ depth repoTree < 4
  /\ crawl 4 cloned "/o-r-main" (Some MARKDOWN_REGEX) []
     = Ok ["/o-r-main/docs/guide/intro.md"; "/o-r-main/docs/a.md";
           "/o-r-main/docs/a.mdx"; "/o-r-main/README.md"]
  /\ crawl 4 cloned "/o-r-main" None []
     = Ok ["/o-r-main/docs/guide/intro.md"; "/o-r-main/docs/a.md";
           "/o-r-main/docs/a.mdx"; "/o-r-main/docs/notes.txt";
           "/o-r-main/README.md"]
  /\ crawl 1 cloned "/o-r-main/docs/notes.txt" (Some MARKDOWN_REGEX) [] = Ok []
  /\ crawl 1 cloned "/o-r-main/docs/notes.txt" None []
     = Ok ["/o-r-main/docs/notes.txt"]
  /\ exists files,
      crawl 4 cloned "/o-r-main" (Some MARKDOWN_REGEX) [] = Ok files
      /\ NoDup files
      /\ (forall f, In f files <->
                    fileUnder repoTree "/o-r-main" f
                    /\ test MARKDOWN_REGEX f = true)
      /\ (Some MARKDOWN_REGEX = Some MARKDOWN_REGEX ->
          forall f, In f files <->
                    fileUnder repoTree "/o-r-main" f
                    /\ exists b, f = b ++ ".md" \/ f = b ++ ".mdx")
      /\ (isDirectory repoTree = false ->
          files = if test MARKDOWN_REGEX "/o-r-main" then ["/o-r-main"] else []).
Proof.
  split; [exact repoTree_wf|]. split; [reflexivity|]. split; [simpl; lia|].
  do 4 (split; [reflexivity|]).
  apply (crawl_complete_duplicate_free cloned repoTree "/o-r-main"
           (Some MARKDOWN_REGEX) 4); [exact repoTree_wf | reflexivity | simpl; lia].
Defined.

(** C5, on the code.  The example of the claim evaluates to
    [lib/guide/intro].  When the docs [dir] names a markdown file, the
    entry path is that file and [crawl] returns it; it does not hold
    [entry/], so nothing is stripped and the slug the document stores is
    made from the absolute path: the library id, an empty segment and the
    segments of the cache slot, not the segments of a relative path. *)
Theorem slug_of_file_entry :
  Str.join "/" (docSlug "lib" (docPath "/repo-main/docs"
                                       "/repo-main/docs/guide/intro.md"))
  = "lib/guide/intro"
  /\ getParams fileEnv "readme" = Some (mkParams "o/r" "main" "README.md")
  /\ entry (mkParams "o/r" "main" "README.md") = "/o-r-main/README.md"
  /\ crawl 3 cloned "/o-r-main/README.md" (Some MARKDOWN_REGEX) []
     = Ok ["/o-r-main/README.md"]
  /\ docPath "/o-r-main/README.md" "/o-r-main/README.md" = "/o-r-main/README.md"
  /\ parseDoc fileEnv "readme" (mkParams "o/r" "main" "README.md") cloned
              "/o-r-main/README.md"
     = Ok readmeDoc
  /\ slug readmeDoc = ["readme"; ""; "o-r-main"; "README"].
Proof. repeat split. Qed.

(** C7. Last write wins: in the docs map [getDocs(lib)] returns no key
    occurs twice, and when several crawled files derive the same slug the
    single entry under that slug is the document of the file processed
    last. *)
Theorem slug_collision_last_write_wins
        (E : Env) (fuel : nat) (lib : string) (w w' : World) (m : DocMap (Data E)) :
  getDocs E fuel (Some lib) w = (w', Ok (LibDocs m)) ->
  exists params files,
    getParams E lib = Some params
    /\ crawl (pred fuel) (fs w') (entry params) (Some MARKDOWN_REGEX) [] = Ok files
    /\ NoDup (map fst m)
    /\ (forall file, In file files ->
                     exists d, parseDoc E lib params (fs w') file = Ok d)
    /\ forall pre file post d,
        files = (pre ++ file :: post)%list ->
        parseDoc E lib params (fs w') file = Ok d ->
        (forall later d', In later post ->
                          parseDoc E lib params (fs w') later = Ok d' ->
                          Str.join "/" (slug d') <> Str.join "/" (slug d)) ->
        assoc (Str.join "/" (slug d)) m = Some d
        /\ filter (fun e => String.eqb (fst e) (Str.join "/" (slug d))) m
           = [(Str.join "/" (slug d), d)].
Proof.
  intros Hrun.
  destruct (getDocs_lib_inv E _ _ _ _ _ Hrun)
    as (fuel' & params & files & -> & Hlib & Hp & Hclone & Hcrawl & Hbuild).
  exists params, files. simpl.
  assert (Hinv : docsInvariant E lib params (fs w') ([] ++ files) m).
  { apply (build_invariant E lib params (fs w') files [] []); [|assumption].
    split; [constructor | intros k d []]. }
  destruct Hinv as [Hnd _].
  split; [assumption|]. split; [assumption|]. split; [assumption|].
  split; [exact (build_parsed E lib params (fs w') files _ _ Hbuild)|].
  intros pre file post d -> Hparse Hlast.
  assert (Hassoc : assoc (Str.join "/" (slug d)) m = Some d).
  { exact (build_last_wins E lib params (fs w') pre post file d m Hbuild Hparse Hlast). }
  split; [assumption | now apply one_entry].
Qed.

Lemma slug_collision_last_write_wins_witness :
  getDocs env 4 (Some "lib") emptyWorld
  = ({| fs := cloned; clones := [cloneRequest (mkParams "o/r" "main" "docs")] |},
     Ok (LibDocs [("lib/guide/intro", introDoc); ("lib/a", secondDoc)]))
  /\ exists params files,
      getParams env "lib" = Some params
      /\ crawl 3 cloned (entry params) (Some MARKDOWN_REGEX) [] = Ok files
      /\ NoDup ["lib/guide/intro"; "lib/a"]
      /\ (forall file, In file files ->
                       exists d, parseDoc env "lib" params cloned file = Ok d)
      /\ forall pre file post d,
          files = (pre ++ file :: post)%list ->
          parseDoc env "lib" params cloned file = Ok d ->
          (forall later d', In later post ->
                            parseDoc env "lib" params cloned later = Ok d' ->
                            Str.join "/" (slug d') <> Str.join "/" (slug d)) ->
          assoc (Str.join "/" (slug d))
                [("lib/guide/intro", introDoc); ("lib/a", secondDoc)] = Some d
          /\ filter (fun e => String.eqb (fst e) (Str.join "/" (slug d)))
                    [("lib/guide/intro", introDoc); ("lib/a", secondDoc)]
             = [(Str.join "/" (slug d), d)].
Proof.
  split; [reflexivity|].
  exact (slug_collision_last_write_wins env 4 "lib" emptyWorld _ _ eq_refl).
Defined.

(** The two files [a.md] and [a.mdx] of the example derive the slug
    [lib/a]; the map holds the document of [a.mdx], which comes last. *)
Lemma collision_example :
  crawl 3 cloned "/o-r-main/docs" (Some MARKDOWN_REGEX) []
  = Ok ["/o-r-main/docs/guide/intro.md"; "/o-r-main/docs/a.md";
        "/o-r-main/docs/a.mdx"]
  /\ option_map slug (assoc "lib/a" [("lib/guide/intro", introDoc); ("lib/a", secondDoc)])
     = Some ["lib"; "a"]
  /\ path secondDoc = "a.mdx" /\ content secondDoc = "second".
Proof. repeat split. Qed.

(** C10, on the code.  When the docs [dir] names a markdown file, the
    entry of the docs map is filed under a key made from the absolute path
    and its path field is the absolute path of the file, which is not a
    path relative to the entry path: the file is not [entry/] followed by
    the path field. *)
Theorem docs_map_path_of_file_entry :
  getParams fileEnv "readme" = Some (mkParams "o/r" "main" "README.md")
  /\ entry (mkParams "o/r" "main" "README.md") = "/o-r-main/README.md"
  /\ getDocs fileEnv 4 (Some "readme") emptyWorld
     = ({| fs := cloned;
           clones := [cloneRequest (mkParams "o/r" "main" "README.md")] |},
        Ok (LibDocs [("readme//o-r-main/README", readmeDoc)]))
  /\ path readmeDoc = "/o-r-main/README.md"
  /\ "/o-r-main/README.md" <> "/o-r-main/README.md" ++ "/" ++ path readmeDoc.
Proof. repeat split. discriminate. Qed.

Lemma promiseAll_all_ok {A : Type} (l : list (Outcome A)) (rs : list A) :
  promiseAll l = Ok rs -> l = map Ok rs.
Proof.
  revert rs; induction l as [|o l IH]; intros rs; simpl.
  - now intros [= <-].
  - destruct o as [a| |]; simpl; try discriminate.
    destruct (promiseAll l) as [more| |]; simpl; try discriminate.
    intros [= <-]. simpl. now rewrite (IH more eq_refl).
Qed.

Lemma start_lib (E : Env) (fuel : nat) (lib : string) (w : World) :
  lib <> "" ->
  start E (S fuel) (Some lib) w =
  match getParams E lib with
  | None => (w, Settled (Ok Absent))
  | Some params =>
      let (w1, cloned) := clone E params w in
      (w1, AwaitClone lib params cloned)
  end.
Proof. intros Hlib. cbn [start]. now rewrite (unspecified_Some _ Hlib). Qed.

(** Every key has its call among the calls started. *)
Lemma startAll_child {A : Type} (f : option string -> World -> World * A)
      (k : string) (keys : list string) :
  In k keys -> forall w, exists wk, In (snd (f (Some k) wk)) (snd (startAll f keys w)).
Proof.
  induction keys as [|k0 keys IH]; intros Hin w; [destruct Hin|].
  cbn [startAll]. destruct (f (Some k0) w) as [w1 a] eqn:Hf.
  destruct Hin as [-> | Hin].
  - exists w. destruct (startAll f keys w1). rewrite Hf. now left.
  - destruct (IH Hin w1) as [wk Hwk]. exists wk.
    destruct (startAll f keys w1). now right.
Qed.

(** With the empty string among the keys, a call without library calls
    itself without end: it never returns. *)
Lemma empty_key_never_returns (E : Env) :
  In "" (map fst (libs E)) ->
  forall fuel fuel' root w r,
    resume E fuel' root (snd (start E fuel (Some "") w)) <> Ok r.
Proof.
  intros Hkey. induction fuel as [|fuel IH]; intros fuel' root w r; [discriminate|].
  cbn [start unspecified isEmpty].
  destruct (startAll (start E fuel) (map fst (libs E)) w) as [w1 children] eqn:Hstart.
  cbn [snd resume].
  destruct (promiseAll (map (resume E fuel' root) children)) as [rs| |] eqn:Hall;
    cbn [bind]; try discriminate.
  exfalso. apply promiseAll_all_ok in Hall.
  destruct (startAll_child (start E fuel) "" _ Hkey w) as [wk Hchild].
  rewrite Hstart in Hchild. cbn [snd] in Hchild.
  apply (in_map (resume E fuel' root)) in Hchild. rewrite Hall in Hchild.
  apply in_map_iff in Hchild as (r0 & Hr0 & _).
  exact (IH fuel' root wk r0 (eq_sym Hr0)).
Qed.

(** When every call returns, a library without docs configuration has
    returned undefined and a library with one has returned a docs map. *)
Lemma startAll_returned (E : Env) (fuel fuel' : nat) (root : node) :
  forall keys w w' children,
    incl keys (map fst (libs E)) ->
    startAll (start E fuel) keys w = (w', children) ->
    (forall o, In o (map (resume E fuel' root) children) -> exists r, o = Ok r) ->
    Forall2 (fun k o =>
               (getParams E k = None -> o = Ok Absent)
               /\ (forall params, getParams E k = Some params ->
                                  exists m, o = Ok (LibDocs m)))
            keys (map (resume E fuel' root) children).
Proof.
  induction keys as [|k keys IH]; intros w w' children Hincl Hstart Hall.
  - cbn in Hstart. injection Hstart as _ <-. constructor.
  - cbn [startAll] in Hstart.
    destruct (start E fuel (Some k) w) as [w1 child] eqn:Hchild.
    destruct (startAll (start E fuel) keys w1) as [w2 more] eqn:Hmore.
    injection Hstart as _ <-. cbn [map].
    constructor.
    + destruct (Hall (resume E fuel' root child) (or_introl eq_refl)) as [r Hr].
      destruct (String.eqb_spec k "") as [-> | Hk].
      * exfalso. apply (empty_key_never_returns E (Hincl "" (or_introl eq_refl))
                          fuel fuel' root w r).
        now rewrite Hchild.
      * destruct fuel as [|fuel]; [cbn in Hchild; injection Hchild as _ <-; discriminate|].
        rewrite (start_lib E fuel k w Hk) in Hchild.
        destruct (getParams E k) as [params|].
        -- destruct (clone E params w) as [w0 cloned]. injection Hchild as _ <-.
           split; [discriminate|]. intros params0 _.
           cbn [resume] in Hr |- *.
           destruct cloned as [[]| |]; cbn [bind] in *; try discriminate.
           destruct (crawl fuel' root (entry params) (Some MARKDOWN_REGEX) [])
             as [files| |]; cbn [bind] in *; try discriminate.
           destruct (foldOutcome (addDoc E k params root) files []) as [docs| |];
             cbn [bind] in *; try discriminate.
           now exists docs.
        -- injection Hchild as _ <-. split; [reflexivity | discriminate].
    + apply (IH w1 w2 more); [|assumption|].
      * intros k0 Hk0. apply Hincl. now right.
      * intros o Ho. apply Hall. now right.
Qed.

(** C1, as the code has it.  With no library given, [getDocs] calls itself
    for every key of the table and joins the calls with [Promise.all]: when
    one of them fails the whole call fails.  When all of them return, the
    result is the documents of the docs maps one after the other, in the
    order of the table: a library with a docs configuration adds the values
    of its docs map, a library without one has returned undefined and adds
    nothing. *)
Theorem all_libraries_fail_together
        (E : Env) (fuel : nat) (w w' : World) (children : list (Pending E)) :
  startAll (start E fuel) (map fst (libs E)) w = (w', children) ->
  let settled := map (resume E fuel (fs w')) children in
  (forall e, In (Throw e) settled -> ~ In OutOfFuel settled ->
             exists e', getDocs E (S fuel) None w = (w', Throw e'))
  /\ ((forall o, In o settled -> exists r, o = Ok r) ->
      getDocs E (S fuel) None w = (w', Ok (AllDocs (flat_map libraryDocs settled)))
      /\ Forall2 (fun k o =>
                    (getParams E k = None -> o = Ok Absent)
                    /\ (forall params, getParams E k = Some params ->
                                       exists m, o = Ok (LibDocs m)))
                 (map fst (libs E)) settled).
Proof.
  intros Hstart settled. rewrite getDocs_all, Hstart. fold settled. split.
  - intros e Hin Hfuel.
    destruct (promiseAll_throw settled e Hin Hfuel) as [e' ->]. now exists e'.
  - intros Hall.
    pose proof (startAll_returned E fuel fuel (fs w') _ w w' children
                  (incl_refl _) Hstart Hall) as Hkinds.
    fold settled in Hkinds. split; [|exact Hkinds].
    destruct (promiseAll_ok settled Hall) as (rs & -> & Hrs).
    cbn [bind]. do 3 f_equal. rewrite Hrs in Hkinds. rewrite Hrs.
    clear Hrs Hall Hstart. revert Hkinds. generalize (map fst (libs E)) as keys.
    induction rs as [|r rs IH]; intros keys Hkinds; [reflexivity|].
    inversion Hkinds as [|k o keys' os [Hnone Hsome] Hrest]; subst.
    cbn [map flat_map filter]. rewrite <- (IH keys' Hrest).
    destruct (getParams E k) as [params|].
    + destruct (Hsome params eq_refl) as [m [= ->]]. reflexivity.
    + specialize (Hnone eq_refl). injection Hnone as ->. reflexivity.
Qed.

Lemma all_libraries_fail_together_witness :
  startAll (start env 5) (map fst (libs env)) emptyWorld
  = ({| fs := cloned;
        clones := [cloneRequest (mkParams "o/r" "main" "docs");
                   cloneRequest (mkParams "o/r" "main" "")] |},
     [AwaitClone "lib" (mkParams "o/r" "main" "docs") (Ok tt);
      Settled (Ok Absent);
      AwaitClone "whole" (mkParams "o/r" "main" "") (Ok tt)])
  /\ snd (getDocs env 6 None emptyWorld)
     = Ok (AllDocs (introDoc :: secondDoc :: map snd wholeDocs))
  /\ startAll (start brokenEnv 5) (map fst (libs brokenEnv)) emptyWorld
     = ({| fs := cloned;
           clones := [cloneRequest (mkParams "o/missing" "main" "");
                      cloneRequest (mkParams "o/r" "main" "docs");
                      cloneRequest (mkParams "o/r" "main" "")] |},
        [AwaitClone "gone" (mkParams "o/missing" "main" "") (Throw AcquisitionFailure);
         AwaitClone "lib" (mkParams "o/r" "main" "docs") (Ok tt);
         Settled (Ok Absent);
         AwaitClone "whole" (mkParams "o/r" "main" "") (Ok tt)])
  /\ exists e', snd (getDocs brokenEnv 6 None emptyWorld) = Throw e'.
Proof.
  split; [reflexivity|]. split.
  - destruct (all_libraries_fail_together env 5 emptyWorld _ _ eq_refl)
      as [_ Hok].
    destruct Hok as [Hrun _].
    + simpl. intros o [<- | [<- | [<- | []]]]; eexists; reflexivity.
    + rewrite Hrun. reflexivity.
  - split; [reflexivity|].
    destruct (all_libraries_fail_together brokenEnv 5 emptyWorld _ _ eq_refl)
      as [Hfail _].
    destruct (Hfail AcquisitionFailure) as [e' He'].
    + now left.
    + simpl. intuition discriminate.
    + exists e'. now rewrite He'.
Defined.

(** C1 as stated fails: the library [gone] cannot be cloned, the library
    [lib] can and has two documents, and the call for all libraries fails
    instead of returning them. *)
Lemma all_libraries_fail_together_counterexample :
  snd (getDocs brokenEnv 5 (Some "gone") emptyWorld) = Throw AcquisitionFailure
  /\ snd (getDocs brokenEnv 5 (Some "lib") emptyWorld)
     = Ok (LibDocs [("lib/guide/intro", introDoc); ("lib/a", secondDoc)])
  /\ snd (getDocs brokenEnv 6 None emptyWorld) = Throw AcquisitionFailure.
Proof. repeat split. Qed.

(** C3, as the code has it.  Two successive requests for the same
    repository and branch use the same cache slot, and each of them calls
    [git.clone] on it: nothing looks whether the slot is there already. *)
Theorem same_slot_cloned_again
        (E : Env) (lib1 lib2 : string) (p1 p2 : Params) (fuel1 fuel2 : nat)
        (w : World) :
  lib1 <> "" -> lib2 <> "" ->
  getParams E lib1 = Some p1 -> getParams E lib2 = Some p2 ->
  p_repo p1 = p_repo p2 -> p_branch p1 = p_branch p2 ->
  let w1 := fst (getDocs E (S fuel1) (Some lib1) w) in
  let w2 := fst (getDocs E (S fuel2) (Some lib2) w1) in
  gitDir p1 = gitDir p2
  /\ clone_dir (cloneRequest p1) = gitDir p1
  /\ cloneRequest p1 = cloneRequest p2
  /\ clones w2 = (clones w ++ [cloneRequest p1; cloneRequest p1])%list.
Proof.
  intros Hl1 Hl2 Hp1 Hp2 Hrepo Hbranch w1 w2.
  assert (Hdir : forall lib p, getParams E lib = Some p ->
            gitDir p = "/" ++ Str.replaceFirstChar "/" "-" (p_repo p) ++ "-" ++ p_branch p).
  { intros lib p. unfold getParams.
    destruct (assoc lib (libs E)) as [config|]; [|discriminate].
    destruct (docs config) as [d|]; [|discriminate].
    now intros [= <-]. }
  assert (Hslot : gitDir p1 = gitDir p2).
  { rewrite (Hdir _ _ Hp1), (Hdir _ _ Hp2). now rewrite Hrepo, Hbranch. }
  assert (Hreq : cloneRequest p1 = cloneRequest p2).
  { unfold cloneRequest. now rewrite Hslot, Hrepo, Hbranch. }
  split; [assumption|]. split; [reflexivity|]. split; [assumption|].
  unfold w2, w1.
  rewrite (getDocs_lib_log E fuel2 lib2 p2 _ Hl2 Hp2).
  rewrite (getDocs_lib_log E fuel1 lib1 p1 _ Hl1 Hp1).
  rewrite <- Hreq, <- app_assoc. reflexivity.
Qed.

Lemma same_slot_cloned_again_witness :
  "lib" <> "" /\ "lib" <> ""
  /\ getParams env "lib" = Some (mkParams "o/r" "main" "docs")
  /\ clones (fst (getDocs env 4 (Some "lib")
                    (fst (getDocs env 4 (Some "lib") emptyWorld))))
     = [cloneRequest (mkParams "o/r" "main" "docs");
        cloneRequest (mkParams "o/r" "main" "docs")].
Proof.
  split; [discriminate|]. split; [discriminate|]. split; [reflexivity|].
  assert (Hlib : "lib" <> "") by discriminate.
  destruct (same_slot_cloned_again env "lib" "lib"
              (mkParams "o/r" "main" "docs") (mkParams "o/r" "main" "docs")
              3 3 emptyWorld Hlib Hlib eq_refl eq_refl eq_refl eq_refl)
    as (_ & _ & _ & Hlog).
  exact Hlog.
Defined.

(** C3 as stated fails: after a first request the slot [/o-r-main] holds
    the checkout, and the second request clones all the same. *)
Lemma same_slot_cloned_again_counterexample :
  lookup (fs (fst (getDocs env 4 (Some "lib") emptyWorld))) "/o-r-main"
  = Some repoTree
  /\ clones (fst (getDocs env 4 (Some "lib") emptyWorld))
     = [cloneRequest (mkParams "o/r" "main" "docs")]
  /\ clones (fst (getDocs env 4 (Some "lib")
                    (fst (getDocs env 4 (Some "lib") emptyWorld))))
     = [cloneRequest (mkParams "o/r" "main" "docs");
        cloneRequest (mkParams "o/r" "main" "docs")].
Proof. repeat split. Qed.

(** C8, as the code has it.  A library id that the table does not have, or
    has without a docs configuration, resolves to nothing; when the id is
    not the empty string, [getDocs] then returns undefined and leaves the
    world as it is: no clone, no change of the file system. *)
Theorem unconfigured_library_absent (E : Env) (lib : string) :
  assoc lib (libs E) = None
  \/ (exists config, assoc lib (libs E) = Some config /\ docs config = None) ->
  getParams E lib = None
  /\ (lib <> "" ->
      forall fuel w, getDocs E (S fuel) (Some lib) w = (w, Ok Absent)).
Proof.
  intros Hconfig.
  assert (Hp : getParams E lib = None).
  { unfold getParams. destruct Hconfig as [-> | (config & -> & ->)]; reflexivity. }
  split; [assumption|].
  intros Hlib fuel w. now rewrite (getDocs_lib E fuel lib w Hlib), Hp.
Qed.

Lemma unconfigured_library_absent_witness :
  (assoc "plain" (libs env) = None
   \/ exists config, assoc "plain" (libs env) = Some config /\ docs config = None)
  /\ getParams env "plain" = None
  /\ getDocs env 1 (Some "plain") emptyWorld = (emptyWorld, Ok Absent).
Proof.
  assert (H : assoc "plain" (libs env) = None
              \/ exists config, assoc "plain" (libs env) = Some config
                                /\ docs config = None).
  { right. exists {| docs := None |}. split; reflexivity. }
  split; [exact H|].
  destruct (unconfigured_library_absent env "plain" H) as [Hp Hrun].
  split; [exact Hp|]. apply Hrun. discriminate.
Defined.

(** C8 as stated fails at the empty string: it is no key of the table, and
    [getDocs] takes it for a missing argument and clones every library. *)
Lemma unconfigured_library_absent_counterexample :
  assoc "" (libs env) = None
  /\ getParams env "" = None
  /\ clones (fst (getDocs env 6 (Some "") emptyWorld))
     = [cloneRequest (mkParams "o/r" "main" "docs");
        cloneRequest (mkParams "o/r" "main" "")]
  /\ snd (getDocs env 6 (Some "") emptyWorld)
     = Ok (AllDocs (introDoc :: secondDoc :: mapValues wholeDocs)).
Proof. repeat split. Qed.

(** C9. The cache slot depends on the repository and the branch only: two
    docs configurations with the same [repo] and [branch] get the same
    [gitDir], whatever their [dir]; it is [/], the repository with its
    separator replaced by [-], [-] and the branch; the branch defaults to
    [main], and without a [dir] (or with an empty one) the entry path is
    the [gitDir] itself. *)
Theorem cache_key_repo_branch_only
        (E1 E2 : Env) (lib1 lib2 : string) (c1 c2 : LibConfig) (d1 d2 : DocsConfig) :
  assoc lib1 (libs E1) = Some c1 -> docs c1 = Some d1 ->
  assoc lib2 (libs E2) = Some c2 -> docs c2 = Some d2 ->
  repo d1 = repo d2 -> branch d1 = branch d2 ->
  exists p1 p2,
    getParams E1 lib1 = Some p1 /\ getParams E2 lib2 = Some p2
    /\ gitDir p1 = gitDir p2
    /\ gitDir p1 = "/" ++ Str.replaceFirstChar "/" "-" (repo d1) ++ "-" ++ p_branch p1
    /\ (branch d1 = None -> p_branch p1 = "main")
    /\ (forall b, branch d1 = Some b -> p_branch p1 = b)
    /\ (dir d1 = None \/ dir d1 = Some "" -> entry p1 = gitDir p1)
    /\ (forall s, dir d1 = Some s -> s <> "" -> entry p1 = gitDir p1 ++ "/" ++ s).
Proof.
  intros Hc1 Hd1 Hc2 Hd2 Hrepo Hbranch.
  unfold getParams. rewrite Hc1, Hd1, Hc2, Hd2.
  eexists. eexists. split; [reflexivity|]. split; [reflexivity|]. simpl.
  split; [now rewrite Hrepo, Hbranch|]. split; [reflexivity|].
  split; [now intros ->|]. split; [now intros b ->|]. split.
  - now intros [-> | ->].
  - intros s -> Hs. simpl. destruct s; [congruence | reflexivity].
Qed.

Lemma cache_key_repo_branch_only_witness :
  getParams env "lib" = Some (mkParams "o/r" "main" "docs")
  /\ getParams env "whole" = Some (mkParams "o/r" "main" "")
  /\ gitDir (mkParams "o/r" "main" "docs") = "/o-r-main"
  /\ gitDir (mkParams "o/r" "main" "") = "/o-r-main"
  /\ exists p1 p2,
      getParams env "lib" = Some p1 /\ getParams env "whole" = Some p2
      /\ gitDir p1 = gitDir p2
      /\ gitDir p1 = "/" ++ Str.replaceFirstChar "/" "-" "o/r" ++ "-" ++ p_branch p1
      /\ (@None string = None -> p_branch p1 = "main")
      /\ (forall b, None = Some b -> p_branch p1 = b)
      /\ (Some "docs" = None \/ Some "docs" = Some "" -> entry p1 = gitDir p1)
      /\ (forall s, Some "docs" = Some s -> s <> "" ->
                    entry p1 = gitDir p1 ++ "/" ++ s).
Proof.
  repeat (split; [reflexivity|]).
  exact (cache_key_repo_branch_only env env "lib" "whole"
           (docsOf (Some "docs") "o/r") (docsOf None "o/r")
           {| dir := Some "docs"; repo := "o/r"; branch := None |}
           {| dir := None; repo := "o/r"; branch := None |}
           eq_refl eq_refl eq_refl eq_refl eq_refl eq_refl).
Defined.

(** C6. A text without a leading front-matter block has an empty front
    matter and is its own body, so the whole text is what the document of
    such a file is sanitized from; the text [---\ntitle: X\n---\nBody] has
    the front matter [{title: "X"}] and the body [Body], delimiter lines
    removed, and that is also what its document holds. *)
Theorem front_matter_round_trip (E : Env) (text : string) :
  Str.startsWith "---" text = false ->
  matter E text = Ok (emptyData E, text)
  /\ (forall lib params root file,
        readFileSync root file = Ok text ->
        exists d, parseDoc E lib params root file = Ok d
                  /\ data d = emptyData E
                  /\ content d
                     = removeAll COMMENT_REGEX (removeAll FRONTMATTER_REGEX text))
  /\ matter env introText = Ok ([("title", "X")], "Body")
  /\ parseDoc env "lib" (mkParams "o/r" "main" "docs") cloned
              "/o-r-main/docs/guide/intro.md"
     = Ok {| path := "guide/intro.md"; slug := ["lib"; "guide"; "intro"];
             data := [("title", "X")]; content := "Body" |}.
Proof.
  intros Hstart.
  assert (Hmatter : matter E text = Ok (emptyData E, text)).
  { unfold matter. now rewrite Hstart. }
  split; [assumption|]. split; [|split; reflexivity].
  intros lib params root file Hread. unfold parseDoc.
  rewrite Hread. simpl. rewrite Hmatter. simpl. eexists. now split.
Qed.

Lemma front_matter_round_trip_witness :
  Str.startsWith "---" "# Title" = false
  /\ matter env "# Title" = Ok ([], "# Title").
Proof.
  split; [reflexivity|].
  exact (proj1 (front_matter_round_trip env "# Title" eq_refl)).
Defined.

(** C2, on the code.  For the text
    [<!-- --> \n---\ntitle: A\n---\n<!-- hidden -->Visible] the front
    matter comes out empty, because the text does not start with [---], and
    the content keeps the front-matter block and the opening marker of the
    second comment: the first pass removes every [-->], so the second pass
    finds no comment to remove but the first line. *)
Theorem comment_sanitation_example :
  matter env hiddenText = Ok ([], hiddenText)
  /\ removeAll FRONTMATTER_REGEX hiddenText
     = "<!-- " ++ Str.nl ++ "---" ++ Str.nl ++ "title: A" ++ Str.nl ++ "---"
       ++ Str.nl ++ "<!-- hiddenVisible"
  /\ parseDoc env "lib" (mkParams "o/r" "main" "docs") hiddenTree
              "/o-r-main/docs/hidden.md"
     = Ok hiddenDoc
  /\ data hiddenDoc = []
  /\ Str.includes "Visible" (content hiddenDoc) = true
  /\ Str.includes "<!--" (content hiddenDoc) = true
  /\ removeAll COMMENT_REGEX (removeAll FRONTMATTER_REGEX "<!-- hidden -->Visible")
     = "<!-- hiddenVisible".
Proof. repeat split. Qed.

(* ================================================================== *)
(** ** Lemmas on the matcher *)

Section MatcherLemmas.

Lemma rmatch_lazy (a : regex) (i : nat) (s : string) (k : nat -> string -> option nat) :
  rmatch (LazyStar a) i s k = lazyLoop a k (String.length s) i s.
Proof. reflexivity. Qed.

(** A lazy star over one class scans. *)
Lemma lazyLoop_class (p : ascii -> bool) (k : nat -> string -> option nat) :
  forall t n i, String.length t <= n -> lazyLoop (Chr p) k n i t = scan p k i t.
Proof.
  induction t as [|c t IH]; intros n i Hn.
  - destruct n; simpl; now destruct (k i "").
  - destruct n as [|n]; [simpl in Hn; lia|].
    cbn [lazyLoop scan]. destruct (k i (String c t)); [reflexivity|].
    cbn [rmatch]. destruct (p c); [|reflexivity].
    assert (Hlt : Nat.ltb i (S i) = true) by (apply Nat.ltb_lt; lia).
    rewrite Hlt. apply IH. simpl in Hn. lia.
Qed.

(** So does a lazy star over [.|\n]. *)
Lemma lazyLoop_dotOrLF (k : nat -> string -> option nat) :
  forall t n i, String.length t <= n ->
                lazyLoop (Alt (Chr isDot) (Lit1 Str.LF)) k n i t = scan dotOrLF k i t.
Proof.
  induction t as [|c t IH]; intros n i Hn.
  - destruct n; simpl; now destruct (k i "").
  - destruct n as [|n]; [simpl in Hn; lia|].
    cbn [lazyLoop scan]. destruct (k i (String c t)); [reflexivity|].
    unfold Lit1. cbn [rmatch]. unfold dotOrLF at 1.
    assert (Hlt : Nat.ltb i (S i) = true) by (apply Nat.ltb_lt; lia).
    rewrite Hlt. fold (lazyLoop (Alt (Chr isDot) (Chr (Ascii.eqb Str.LF))) k).
    change (Chr (Ascii.eqb Str.LF)) with (Lit1 Str.LF).
    rewrite (IH n (S i)) by (simpl in Hn; lia).
    destruct (isDot c); cbn [orb].
    + destruct (scan dotOrLF k (S i) t); [reflexivity|].
      now destruct (Ascii.eqb Str.LF c).
    + reflexivity.
Qed.

(** A literal matches when the input starts with it. *)
Lemma rmatch_Lit (s : string) :
  forall c i t k,
    rmatch (Lit c s) i t k =
    if Str.startsWith (String c s) t
    then k (S (String.length s) + i) (Str.drop (S (String.length s)) t)
    else None.
Proof.
  induction s as [|d s IH]; intros c i t k.
  - cbn -[Ascii.eqb]. destruct t as [|x t]; [reflexivity|].
    cbn -[Ascii.eqb]. destruct (Ascii.eqb c x); [|reflexivity].
    now destruct t.
  - cbn [Lit rmatch Lit1]. destruct t as [|x t]; [reflexivity|].
    change (Str.startsWith (String c (String d s)) (String x t))
      with (Ascii.eqb c x && Str.startsWith (String d s) t).
    change (Str.drop (S (String.length (String d s))) (String x t))
      with (Str.drop (S (String.length s)) t).
    destruct (Ascii.eqb c x); [|reflexivity].
    rewrite IH. cbn [andb String.length].
    destruct (Str.startsWith (String d s) t); [|reflexivity].
    f_equal. lia.
Qed.

Lemma rmatch_Seq (a b : regex) (i : nat) (s : string) (k : nat -> string -> option nat) :
  rmatch (Seq a b) i s k = rmatch a i s (fun j t => rmatch b j t k).
Proof. reflexivity. Qed.

Lemma rmatch_Alt (a b : regex) (i : nat) (s : string) (k : nat -> string -> option nat) :
  rmatch (Alt a b) i s k =
  match rmatch a i s k with Some e => Some e | None => rmatch b i s k end.
Proof. reflexivity. Qed.

Lemma rmatch_Bos (i : nat) (s : string) (k : nat -> string -> option nat) :
  rmatch Bos i s k = if Nat.eqb i 0 then k i s else None.
Proof. reflexivity. Qed.

Lemma rmatch_Ahead (a : regex) (i : nat) (s : string) (k : nat -> string -> option nat) :
  rmatch (Ahead a) i s k =
  match rmatch a i s (fun j _ => Some j) with Some _ => k i s | None => None end.
Proof. reflexivity. Qed.

Lemma rmatch_NotAhead (a : regex) (i : nat) (s : string) (k : nat -> string -> option nat) :
  rmatch (NotAhead a) i s k =
  match rmatch a i s (fun j _ => Some j) with Some _ => None | None => k i s end.
Proof. reflexivity. Qed.

Lemma scan_ext (p : ascii -> bool) (k1 k2 : nat -> string -> option nat) :
  (forall j u, k1 j u = k2 j u) ->
  forall t i, scan p k1 i t = scan p k2 i t.
Proof.
  intros Hk. induction t as [|c t IH]; intros i; cbn [scan]; rewrite Hk.
  - reflexivity.
  - destruct (k2 i (String c t)); [reflexivity|].
    destruct (p c); [apply IH | reflexivity].
Qed.

(** A lazy star over a class, followed by [k]. *)
Lemma rmatch_lazy_class (p : ascii -> bool) (i : nat) (s : string)
      (k : nat -> string -> option nat) :
  rmatch (LazyStar (Chr p)) i s k = scan p k i s.
Proof. rewrite rmatch_lazy. now apply lazyLoop_class. Qed.

Lemma matchAt_frontmatter (i : nat) (t : string) :
  matchAt FRONTMATTER_REGEX i t = frontmatterAt i t.
Proof.
  unfold matchAt, FRONTMATTER_REGEX, frontmatterAt. rewrite rmatch_Alt.
  assert (H1 : rmatch (Seq Bos (Seq (Lit "<" "!--")
                                   (Seq (LazyStar (Chr isSpace)) (Ahead (Lit "-" "--")))))
                      i t (fun j _ => Some j)
               = if Nat.eqb i 0 && Str.startsWith "<!--" t
                 then scan isSpace dashesAhead (4 + i) (Str.drop 4 t) else None).
  { rewrite rmatch_Seq, rmatch_Bos. destruct (Nat.eqb i 0); [|reflexivity].
    cbn [andb]. rewrite rmatch_Seq, rmatch_Lit.
    destruct (Str.startsWith "<!--" t); [|reflexivity].
    cbn [String.length]. rewrite rmatch_Seq, rmatch_lazy_class.
    apply scan_ext. intros j u. rewrite rmatch_Ahead, rmatch_Lit.
    unfold dashesAhead. now destruct (Str.startsWith "---" u). }
  assert (H2 : rmatch (Seq (NotAhead (Lit "-" "--"))
                           (Seq (LazyStar (Chr isSpace)) (Lit "-" "->")))
                      i t (fun j _ => Some j)
               = if Str.startsWith "---" t then None else scan isSpace closerAt i t).
  { rewrite rmatch_Seq, rmatch_NotAhead, rmatch_Lit.
    destruct (Str.startsWith "---" t); [reflexivity|].
    rewrite rmatch_Seq, rmatch_lazy_class.
    apply scan_ext. intros j u. rewrite rmatch_Lit. reflexivity. }
  now rewrite H1, H2.
Qed.

Lemma matchAt_comment (i : nat) (t : string) :
  matchAt COMMENT_REGEX i t = commentAt i t.
Proof.
  unfold matchAt, COMMENT_REGEX, commentAt. rewrite rmatch_Alt.
  rewrite !rmatch_Seq, !rmatch_Lit.
  destruct (Str.startsWith "<!--" t); [|reflexivity].
  cbn [String.length]. rewrite !rmatch_Seq, rmatch_lazy_class.
  rewrite rmatch_lazy, lazyLoop_dotOrLF by lia.
  rewrite (scan_ext dotOrLF _ closerAt)
    by (intros j u; rewrite rmatch_Lit; reflexivity).
  rewrite (scan_ext notLF _ lineFeedAt); [reflexivity|].
  intros j u. unfold Lit1, lineFeedAt. cbn [rmatch]. now destruct u.
Qed.

End MatcherLemmas.

(* ================================================================== *)
(** ** Lemmas on searching and replacing *)

Section ReplaceLemmas.

Lemma search_miss (r : regex) (i : nat) (c : ascii) (t : string) :
  matchAt r i (String c t) = None ->
  search r i (String c t) = search r (S i) t.
Proof. intros H. cbn [search]. now rewrite H. Qed.

Lemma search_hit (r : regex) (i e : nat) (s : string) :
  matchAt r i s = Some e -> search r i s = Some (i, e).
Proof. intros H. destruct s; cbn [search]; now rewrite H. Qed.

(** No match starts inside a prefix: the search goes on behind it. *)
Lemma search_skip (r : regex) (t : string) :
  forall a i,
    (forall a1 x a2, a = a1 ++ String x a2 ->
                     matchAt r (String.length a1 + i) (String x a2 ++ t) = None) ->
    search r i (a ++ t) = search r (String.length a + i) t.
Proof.
  induction a as [|x a IH]; intros i Hnone; [reflexivity|].
  cbn [append]. rewrite search_miss by exact (Hnone "" x a eq_refl).
  rewrite IH.
  - cbn [String.length]. f_equal. lia.
  - intros a1 y a2 ->.
    specialize (Hnone (String x a1) y a2 eq_refl). cbn [String.length] in Hnone.
    now replace (String.length a1 + S i) with (S (String.length a1) + i) by lia.
Qed.

Lemma removeAllFrom_none (fuel : nat) (r : regex) (i : nat) (s : string) :
  search r i s = None -> removeAllFrom (S fuel) r i s = s.
Proof. intros H. cbn [removeAllFrom]. now rewrite H. Qed.

Lemma removeAllFrom_hit (fuel : nat) (r : regex) (i a e : nat) (s : string) :
  search r i s = Some (a, e) -> e <> a ->
  removeAllFrom (S fuel) r i s =
  Str.take (a - i) s ++ removeAllFrom fuel r e (Str.drop (e - i) s).
Proof.
  intros H Hne. cbn [removeAllFrom]. rewrite H.
  now rewrite (proj2 (Nat.eqb_neq e a) Hne).
Qed.

Lemma take_append (a t : string) : Str.take (String.length a) (a ++ t) = a.
Proof. induction a; simpl; congruence. Qed.

Lemma drop_append_more (a t : string) (n : nat) :
  Str.drop (String.length a + n) (a ++ t) = Str.drop n t.
Proof. induction a; simpl; auto. Qed.

Lemma includes_false (p : string) (c : ascii) (s : string) :
  Str.includes p (String c s) = false ->
  Str.startsWith p (String c s) = false /\ Str.includes p s = false.
Proof.
  unfold Str.includes. cbn [Str.indexOf].
  destruct (Str.startsWith p (String c s)); [discriminate|].
  now destruct (Str.indexOf p s).
Qed.

Lemma includes_false_start (p s : string) :
  Str.includes p s = false -> Str.startsWith p s = false.
Proof.
  destruct s as [|c s]; [|intros H; now apply includes_false in H].
  unfold Str.includes. cbn [Str.indexOf]. now destruct (Str.startsWith p "").
Qed.

(** Without [-->] in the text no closer is found. *)
Lemma scan_closer_none (p : ascii -> bool) (s : string) :
  Str.includes "-->" s = false -> forall i, scan p closerAt i s = None.
Proof.
  induction s as [|c s IH]; intros Hs i; cbn [scan]; unfold closerAt at 1;
    rewrite (includes_false_start _ _ Hs); [reflexivity|].
  destruct (p c); [|reflexivity]. apply IH. now apply includes_false in Hs.
Qed.

Lemma frontmatter_search_none (s : string) :
  forall i, (i = 0 -> Str.startsWith "<!--" s = false) ->
            Str.includes "-->" s = false ->
            search FRONTMATTER_REGEX i s = None.
Proof.
  induction s as [|c s IH]; intros i Hopen Hs.
  - cbn [search]. rewrite matchAt_frontmatter. unfold frontmatterAt.
    rewrite andb_false_r. reflexivity.
  - assert (Hat : matchAt FRONTMATTER_REGEX i (String c s) = None).
    { rewrite matchAt_frontmatter. unfold frontmatterAt.
      rewrite (scan_closer_none _ _ Hs).
      destruct (Nat.eqb_spec i 0) as [Hi | _]; cbn [andb].
      - rewrite (Hopen Hi). now destruct (Str.startsWith "---" (String c s)).
      - now destruct (Str.startsWith "---" (String c s)). }
    rewrite (search_miss _ _ _ _ Hat). apply IH; [lia|].
    now apply includes_false in Hs.
Qed.

Lemma comment_search_none (s : string) :
  Str.includes "<!--" s = false -> forall i, search COMMENT_REGEX i s = None.
Proof.
  induction s as [|c s IH]; intros Hs i.
  - reflexivity.
  - assert (Hat : matchAt COMMENT_REGEX i (String c s) = None).
    { rewrite matchAt_comment. unfold commentAt.
      now rewrite (includes_false_start _ _ Hs). }
    rewrite (search_miss _ _ _ _ Hat). apply IH. now apply includes_false in Hs.
Qed.

End ReplaceLemmas.

(* ================================================================== *)
(** ** Lemmas on comments and front-matter wrappers *)

Section CommentLemmas.

Lemma scan_cons (p : ascii -> bool) (k : nat -> string -> option nat)
      (i : nat) (c : ascii) (t : string) :
  scan p k i (String c t) =
  match k i (String c t) with
  | Some e => Some e
  | None => if p c then scan p k (S i) t else None
  end.
Proof. reflexivity. Qed.

Lemma noChar_append (x : ascii) (a b : string) :
  noChar x (a ++ b) = noChar x a && noChar x b.
Proof. induction a as [|c a IH]; simpl; [reflexivity | now rewrite IH, andb_assoc]. Qed.

Lemma noChar_head (x c : ascii) (s : string) :
  noChar x (String c s) = true -> Ascii.eqb x c = false /\ noChar x s = true.
Proof.
  cbn [noChar]. intros H. apply andb_true_iff in H as [Hc Hs].
  apply negb_true_iff in Hc. now rewrite Ascii.eqb_sym.
Qed.

(** A pattern that holds [x] does not start a string without [x]. *)
Lemma noChar_startsWith (x : ascii) (p : string) :
  noChar x p = false ->
  forall s, noChar x s = true -> Str.startsWith p s = false.
Proof.
  induction p as [|a p IH]; intros Hp s Hs; [discriminate|].
  destruct s as [|b s]; [reflexivity|].
  apply noChar_head in Hs as [Hb Hs]. cbn [Str.startsWith noChar] in *.
  destruct (Ascii.eqb_spec a b) as [<- | _]; [|reflexivity]. cbn [andb].
  rewrite Ascii.eqb_sym, Hb in Hp. cbn [negb andb] in Hp. now apply IH.
Qed.

Lemma noChar_includes (x : ascii) (p s : string) :
  noChar x p = false -> noChar x s = true -> Str.includes p s = false.
Proof.
  intros Hp. unfold Str.includes.
  induction s as [|c s IH]; intros Hs; cbn [Str.indexOf];
    rewrite (noChar_startsWith x p Hp _ Hs); [reflexivity|].
  apply noChar_head in Hs as [_ Hs]. specialize (IH Hs).
  now destruct (Str.indexOf p s).
Qed.

Lemma space_not (x : ascii) (c : ascii) :
  isSpace x = false -> isSpace c = true -> Ascii.eqb x c = false.
Proof. intros Hx Hc. destruct (Ascii.eqb_spec x c); [congruence | reflexivity]. Qed.

Lemma allSpace_noChar (x : ascii) (w : string) :
  isSpace x = false -> allChars isSpace w = true -> noChar x w = true.
Proof.
  intros Hx. induction w as [|c w IH]; [reflexivity|]. cbn [allChars noChar].
  intros H. apply andb_true_iff in H as [Hc Hw].
  now rewrite Ascii.eqb_sym, (space_not x c Hx Hc), IH.
Qed.

(** Before the [-->] that follows it, a text without [>] that is not empty
    does not start with [-->]. *)
Lemma closer_blocked (u v : string) :
  u <> "" -> noChar ">" u = true ->
  Str.startsWith "-->" (u ++ "-->" ++ v) = false.
Proof.
  intros Hne Hu. destruct u as [|x [|y [|z u]]]; [congruence | | |].
  - cbn -[Ascii.eqb]. destruct (Ascii.eqb "-" x); reflexivity.
  - cbn -[Ascii.eqb]. destruct (Ascii.eqb "-" x); [|reflexivity].
    destruct (Ascii.eqb "-" y); reflexivity.
  - apply noChar_head in Hu as [_ Hu]. apply noChar_head in Hu as [_ Hu].
    apply noChar_head in Hu as [Hz _].
    cbn -[Ascii.eqb]. rewrite Hz.
    destruct (Ascii.eqb "-" x); [|reflexivity].
    destruct (Ascii.eqb "-" y); reflexivity.
Qed.

(** Going over a text of the class without [>], the closer behind it is
    found. *)
Lemma scan_closer_found (p : ascii -> bool) (v : string) :
  forall c j, noChar ">" c = true -> allChars p c = true ->
              scan p closerAt j (c ++ "-->" ++ v) = Some (3 + (String.length c + j)).
Proof.
  induction c as [|x c IH]; intros j Hgt Hp.
  - reflexivity.
  - change (String x c ++ "-->" ++ v) with (String x (c ++ "-->" ++ v)).
    rewrite scan_cons. unfold closerAt at 1.
    change (String x (c ++ "-->" ++ v)) with (String x c ++ "-->" ++ v).
    rewrite closer_blocked by (discriminate || assumption).
    cbn [allChars] in Hp. apply andb_true_iff in Hp as [Hx Hp]. rewrite Hx.
    apply noChar_head in Hgt as [_ Hgt]. rewrite (IH (S j) Hgt Hp).
    cbn [String.length]. f_equal. lia.
Qed.

Lemma notCR_dotOrLF (c : string) :
  noChar Str.CR c = true -> allChars dotOrLF c = true.
Proof.
  induction c as [|x c IH]; [reflexivity|]. intros H.
  apply noChar_head in H as [Hx Hc]. cbn [allChars]. rewrite (IH Hc), andb_true_r.
  unfold dotOrLF, isDot. rewrite (Ascii.eqb_sym x Str.CR), Hx.
  rewrite (Ascii.eqb_sym x Str.LF). now destruct (Ascii.eqb Str.LF x).
Qed.

Lemma noChar_suffix (x : ascii) (a1 a2 : string) :
  noChar x (a1 ++ a2) = true -> noChar x a2 = true.
Proof. rewrite noChar_append. intros H. now apply andb_true_iff in H. Qed.

Lemma endsSolid_suffix (a1 : string) (x : ascii) (a2 : string) :
  endsSolid (a1 ++ String x a2) = endsSolid (String x a2).
Proof.
  induction a1 as [|c a1 IH]; [reflexivity|].
  change (String c a1 ++ String x a2) with (String c (a1 ++ String x a2)).
  cbn [endsSolid]. destruct (a1 ++ String x a2) eqn:Heq; [|exact IH].
  destruct a1; discriminate.
Qed.

Lemma startsWith_more (p s r : string) :
  Str.startsWith p s = true -> Str.startsWith p (s ++ r) = true.
Proof.
  intros H. destruct (startsWith_inv _ _ H) as [q ->].
  rewrite append_assoc. apply startsWith_append.
Qed.

(** Going over white space, the [---] behind it is seen. *)
Lemma scan_dashes_found (rest : string) :
  Str.startsWith "---" rest = true ->
  forall w j, allChars isSpace w = true ->
              scan isSpace dashesAhead j (w ++ rest) = Some (String.length w + j).
Proof.
  intros Hrest. induction w as [|x w IH]; intros j Hw.
  - destruct rest; cbn [append scan]; unfold dashesAhead; now rewrite Hrest.
  - cbn [allChars] in Hw. apply andb_true_iff in Hw as [Hx Hw].
    change (String x w ++ rest) with (String x (w ++ rest)).
    rewrite scan_cons. unfold dashesAhead at 1.
    assert (Hd : Str.startsWith "---" (String x (w ++ rest)) = false).
    { cbn -[Ascii.eqb]. now rewrite (space_not "-" x eq_refl Hx). }
    rewrite Hd, Hx, (IH (S j) Hw). cbn [String.length]. f_equal. lia.
Qed.

(** No closer is reached from inside a block that ends with something
    else than white space. *)
Lemma scan_block_none (w tail : string) :
  allChars isSpace w = true ->
  forall u j, noChar ">" u = true -> endsSolid u = true ->
              scan isSpace closerAt j (u ++ w ++ "-->" ++ tail) = None.
Proof.
  intros Hw. induction u as [|x u IH]; intros j Hgt Hsolid; [discriminate|].
  change (String x u ++ w ++ "-->" ++ tail) with (String x (u ++ w ++ "-->" ++ tail)).
  rewrite scan_cons. unfold closerAt at 1.
  assert (Hblocked : Str.startsWith "-->" (String x (u ++ w ++ "-->" ++ tail)) = false).
  { change (String x (u ++ w ++ "-->" ++ tail)) with (String x u ++ w ++ "-->" ++ tail).
    rewrite <- append_assoc. apply closer_blocked; [discriminate|].
    rewrite noChar_append, Hgt. now rewrite (allSpace_noChar ">" w eq_refl Hw). }
  rewrite Hblocked. destruct (isSpace x) eqn:Hx; [|reflexivity].
  apply noChar_head in Hgt as [_ Hgt]. apply IH; [assumption|].
  destruct u; [cbn [endsSolid] in Hsolid; now rewrite Hx in Hsolid | exact Hsolid].
Qed.

End CommentLemmas.

(* ================================================================== *)
(** ** Further properties: the sanitation passes *)

(** X1. A text that holds neither [<!--] nor [-->] goes through both
    sanitation passes unchanged. *)
Theorem sanitation_leaves_plain_text (s : string) :
  Str.includes "<!--" s = false -> Str.includes "-->" s = false ->
  removeAll FRONTMATTER_REGEX s = s
  /\ removeAll COMMENT_REGEX (removeAll FRONTMATTER_REGEX s) = s.
Proof.
  intros Hopen Hclose.
  assert (Hfm : removeAll FRONTMATTER_REGEX s = s).
  { apply removeAllFrom_none. apply frontmatter_search_none; [|assumption].
    intros _. now apply includes_false_start. }
  split; [assumption|]. rewrite Hfm.
  apply removeAllFrom_none. now apply comment_search_none.
Qed.

Lemma sanitation_leaves_plain_text_witness :
  Str.includes "<!--" "# Title <b>x</b> -- a->b" = false
  /\ Str.includes "-->" "# Title <b>x</b> -- a->b" = false
  /\ removeAll COMMENT_REGEX (removeAll FRONTMATTER_REGEX "# Title <b>x</b> -- a->b")
     = "# Title <b>x</b> -- a->b".
Proof.
  split; [reflexivity|]. split; [reflexivity|].
  exact (proj2 (sanitation_leaves_plain_text "# Title <b>x</b> -- a->b" eq_refl eq_refl)).
Defined.

(** X2. [COMMENT_REGEX] removes a closed comment with its markers: when
    the comment text holds no [>] and no line terminator other than the
    line feed (among the code units below 256 of the embedding that is the
    carriage return; a text with U+2028 or U+2029 is outside this
    statement), and the text around it holds no [<], what is left is the
    text around it. *)
Theorem comment_removed (a c b : string) :
  noChar "<" a = true -> noChar ">" c = true -> noChar Str.CR c = true ->
  noChar "<" b = true ->
  removeAll COMMENT_REGEX (a ++ "<!--" ++ c ++ "-->" ++ b) = a ++ b.
Proof.
  intros Ha Hc Hcr Hb. unfold removeAll.
  set (s := a ++ "<!--" ++ c ++ "-->" ++ b).
  set (e := String.length a + (4 + (String.length c + 3))).
  assert (Hsearch : search COMMENT_REGEX 0 s = Some (String.length a + 0, e)).
  { unfold s. rewrite search_skip.
    - replace e with (3 + (String.length c + (4 + (String.length a + 0))))
        by (unfold e; lia).
      apply search_hit. rewrite matchAt_comment. unfold commentAt.
      change (Str.startsWith "<!--" ("<!--" ++ c ++ "-->" ++ b)) with true.
      change (Str.drop 4 ("<!--" ++ c ++ "-->" ++ b)) with (c ++ "-->" ++ b).
      cbv iota. now rewrite (scan_closer_found dotOrLF b c _ Hc (notCR_dotOrLF c Hcr)).
    - intros a1 x a2 ->. rewrite matchAt_comment. unfold commentAt.
      apply noChar_suffix in Ha. apply noChar_head in Ha as [Hx _].
      change (Str.startsWith "<!--" (String x a2 ++ "<!--" ++ c ++ "-->" ++ b))
        with (Ascii.eqb "<" x
              && Str.startsWith "!--" (a2 ++ "<!--" ++ c ++ "-->" ++ b)).
      now rewrite Hx. }
  rewrite (removeAllFrom_hit _ _ _ _ _ _ Hsearch) by (unfold e; lia).
  rewrite Nat.add_0_r, !Nat.sub_0_r. unfold s at 1. rewrite take_append. f_equal.
  assert (Hdrop : Str.drop e s = b).
  { unfold e, s. rewrite drop_append_more.
    change (Str.drop (4 + (String.length c + 3)) ("<!--" ++ c ++ "-->" ++ b))
      with (Str.drop (String.length c + 3) (c ++ "-->" ++ b)).
    now rewrite drop_append_more. }
  rewrite Hdrop.
  assert (Hlen : 1 <= String.length s).
  { unfold s. rewrite !append_length. simpl. lia. }
  destruct (String.length s) as [|n]; [lia|].
  apply removeAllFrom_none, comment_search_none.
  now apply (noChar_includes "<").
Qed.

Lemma comment_removed_witness :
  noChar "<" "Intro " = true /\ noChar ">" " hidden - note " = true
  /\ noChar Str.CR " hidden - note " = true /\ noChar "<" " outro" = true
  /\ removeAll COMMENT_REGEX ("Intro " ++ "<!--" ++ " hidden - note " ++ "-->" ++ " outro")
     = "Intro " ++ " outro".
Proof.
  repeat (split; [reflexivity|]).
  exact (comment_removed "Intro " " hidden - note " " outro" eq_refl eq_refl eq_refl eq_refl).
Defined.

(** The wrapper of a front matter goes: the opening marker with the white
    space up to the block, the white space after the block with the closing
    marker. *)
Lemma frontmatter_unwrapped (w1 block w2 tail : string) :
  allChars isSpace w1 = true -> allChars isSpace w2 = true ->
  Str.startsWith "---" block = true -> noChar ">" block = true ->
  endsSolid block = true -> noChar ">" tail = true ->
  removeAll FRONTMATTER_REGEX ("<!--" ++ w1 ++ block ++ w2 ++ "-->" ++ tail)
  = block ++ tail.
Proof.
  intros Hw1 Hw2 Hstart Hgt Hsolid Htail. unfold removeAll.
  set (rest := block ++ w2 ++ "-->" ++ tail).
  set (e1 := String.length w1 + 4).
  set (a2 := String.length block + e1).
  set (e2 := 3 + (String.length w2 + a2)).
  assert (H1 : search FRONTMATTER_REGEX 0 ("<!--" ++ w1 ++ rest) = Some (0, e1)).
  { apply search_hit. rewrite matchAt_frontmatter. unfold frontmatterAt.
    change (Nat.eqb 0 0 && Str.startsWith "<!--" ("<!--" ++ w1 ++ rest)) with true.
    change (Str.drop 4 ("<!--" ++ w1 ++ rest)) with (w1 ++ rest).
    cbv iota. unfold e1.
    now rewrite (scan_dashes_found rest (startsWith_more _ _ _ Hstart) w1 _ Hw1). }
  assert (H2 : search FRONTMATTER_REGEX e1 rest = Some (a2, e2)).
  { unfold rest. rewrite search_skip.
    - apply search_hit. rewrite matchAt_frontmatter. unfold frontmatterAt.
      fold a2.
      assert (Hnz : Nat.eqb a2 0 = false) by (apply Nat.eqb_neq; unfold a2, e1; lia).
      rewrite Hnz. cbn [andb].
      assert (Hd : Str.startsWith "---" (w2 ++ "-->" ++ tail) = false).
      { destruct w2 as [|x w2]; [reflexivity|].
        cbn [allChars] in Hw2. apply andb_true_iff in Hw2 as [Hx _].
        cbn -[Ascii.eqb]. now rewrite (space_not "-" x eq_refl Hx). }
      rewrite Hd. unfold e2.
      apply scan_closer_found; [now apply (allSpace_noChar ">") | assumption].
    - intros b1 x b2 Hsplit. rewrite matchAt_frontmatter. unfold frontmatterAt.
      assert (Hnz : Nat.eqb (String.length b1 + e1) 0 = false)
        by (apply Nat.eqb_neq; unfold e1; lia).
      rewrite Hnz. cbn [andb].
      rewrite (scan_block_none w2 tail Hw2 (String x b2)).
      + now destruct (Str.startsWith "---" (String x b2 ++ w2 ++ "-->" ++ tail)).
      + rewrite Hsplit in Hgt. now apply noChar_suffix in Hgt.
      + rewrite Hsplit, endsSolid_suffix in Hsolid. exact Hsolid. }
  assert (Hfuel : exists n, String.length ("<!--" ++ w1 ++ rest) = S (S n)).
  { cbn [append String.length]. eexists. reflexivity. }
  destruct Hfuel as [n ->].
  rewrite (removeAllFrom_hit _ _ _ _ _ _ H1) by (unfold e1; lia).
  change (Str.take (0 - 0) ("<!--" ++ w1 ++ rest)) with "".
  cbn [append]. rewrite Nat.sub_0_r.
  assert (Hdrop1 : Str.drop e1 ("<!--" ++ w1 ++ rest) = rest).
  { unfold e1. rewrite Nat.add_comm.
    change (Str.drop (4 + String.length w1) ("<!--" ++ w1 ++ rest))
      with (Str.drop (String.length w1) (w1 ++ rest)).
    apply drop_append. }
  fold (append w1 rest) in Hdrop1 |- *.
  change (String "<" (String "!" (String "-" (String "-" (w1 ++ rest)))))
    with ("<!--" ++ w1 ++ rest).
  rewrite Hdrop1.
  rewrite (removeAllFrom_hit _ _ _ _ _ _ H2) by (unfold e2; lia).
  assert (Htake : Str.take (a2 - e1) rest = block).
  { unfold a2, rest. replace (String.length block + e1 - e1) with (String.length block) by lia.
    apply take_append. }
  assert (Hdrop2 : Str.drop (e2 - e1) rest = tail).
  { unfold e2, a2, rest.
    replace (3 + (String.length w2 + (String.length block + e1)) - e1)
      with (String.length block + (String.length w2 + 3)) by lia.
    rewrite !drop_append_more. reflexivity. }
  rewrite Htake, Hdrop2. f_equal.
  apply removeAllFrom_none. apply frontmatter_search_none.
  - unfold e2. lia.
  - now apply (noChar_includes ">").
Qed.

(** X3. [FRONTMATTER_REGEX] uncomments a front matter wrapped in a comment
    at the start of the text: the opening marker with the white space up
    to the block, and the white space after the block with the closing
    marker, are removed.  The block starts with [---], holds no [>] and
    does not end with white space; the text behind holds no [>]. *)
Theorem frontmatter_uncommented (w1 block w2 tail : string) :
  allChars isSpace w1 = true -> allChars isSpace w2 = true ->
  Str.startsWith "---" block = true -> noChar ">" block = true ->
  endsSolid block = true -> noChar ">" tail = true ->
  removeAll FRONTMATTER_REGEX ("<!--" ++ w1 ++ block ++ w2 ++ "-->" ++ tail)
  = block ++ tail.
Proof. apply frontmatter_unwrapped. Qed.

Lemma frontmatter_uncommented_witness :
  allChars isSpace Str.nl = true /\ allChars isSpace Str.nl = true
  /\ Str.startsWith "---" ("---" ++ Str.nl ++ "title: A" ++ Str.nl ++ "---") = true
  /\ noChar ">" ("---" ++ Str.nl ++ "title: A" ++ Str.nl ++ "---") = true
  /\ endsSolid ("---" ++ Str.nl ++ "title: A" ++ Str.nl ++ "---") = true
  /\ noChar ">" (Str.nl ++ "# Doc") = true
  /\ removeAll FRONTMATTER_REGEX
       ("<!--" ++ Str.nl ++ ("---" ++ Str.nl ++ "title: A" ++ Str.nl ++ "---")
        ++ Str.nl ++ "-->" ++ Str.nl ++ "# Doc")
     = ("---" ++ Str.nl ++ "title: A" ++ Str.nl ++ "---") ++ Str.nl ++ "# Doc".
Proof.
  repeat (split; [reflexivity|]).
  exact (frontmatter_uncommented Str.nl
           ("---" ++ Str.nl ++ "title: A" ++ Str.nl ++ "---") Str.nl (Str.nl ++ "# Doc")
           eq_refl eq_refl eq_refl eq_refl eq_refl eq_refl).
Defined.

(** X4. A comment that is not closed on its line goes with the rest of the
    line, line feed included: when nothing after its opening marker holds
    [>], and the text before and after holds no [<]. *)
Theorem unclosed_comment_takes_line (a c b : string) :
  noChar "<" a = true -> noChar Str.LF c = true -> noChar ">" c = true ->
  noChar "<" b = true -> noChar ">" b = true ->
  removeAll COMMENT_REGEX (a ++ "<!--" ++ c ++ Str.nl ++ b) = a ++ b.
Proof.
  intros Ha Hlf Hc Hb Hbgt. unfold removeAll.
  set (s := a ++ "<!--" ++ c ++ Str.nl ++ b).
  set (e := String.length a + (4 + (String.length c + 1))).
  assert (Hline : forall u j, noChar Str.LF u = true ->
            scan notLF lineFeedAt j (u ++ Str.nl ++ b) = Some (S (String.length u + j))).
  { induction u as [|x u IH]; intros j Hu; [reflexivity|].
    apply noChar_head in Hu as [Hx Hu].
    change (String x u ++ Str.nl ++ b) with (String x (u ++ Str.nl ++ b)).
    rewrite scan_cons. unfold lineFeedAt at 1. unfold notLF at 1. rewrite Hx.
    rewrite (Ascii.eqb_sym x), Hx. cbn [negb]. rewrite (IH (S j) Hu).
    cbn [String.length]. f_equal. lia. }
  assert (Hsearch : search COMMENT_REGEX 0 s = Some (String.length a + 0, e)).
  { unfold s. rewrite search_skip.
    - replace e with (S (String.length c + (4 + (String.length a + 0))))
        by (unfold e; lia).
      apply search_hit. rewrite matchAt_comment. unfold commentAt.
      change (Str.startsWith "<!--" ("<!--" ++ c ++ Str.nl ++ b)) with true.
      change (Str.drop 4 ("<!--" ++ c ++ Str.nl ++ b)) with (c ++ Str.nl ++ b).
      cbv iota. rewrite scan_closer_none; [now apply Hline|].
      apply (noChar_includes ">"); [reflexivity|].
      now rewrite !noChar_append, Hc, Hbgt.
    - intros a1 x a2 ->. rewrite matchAt_comment. unfold commentAt.
      apply noChar_suffix in Ha. apply noChar_head in Ha as [Hx _].
      change (Str.startsWith "<!--" (String x a2 ++ "<!--" ++ c ++ Str.nl ++ b))
        with (Ascii.eqb "<" x
              && Str.startsWith "!--" (a2 ++ "<!--" ++ c ++ Str.nl ++ b)).
      now rewrite Hx. }
  rewrite (removeAllFrom_hit _ _ _ _ _ _ Hsearch) by (unfold e; lia).
  rewrite Nat.add_0_r, !Nat.sub_0_r. unfold s at 1. rewrite take_append. f_equal.
  assert (Hdrop : Str.drop e s = b).
  { unfold e, s. rewrite drop_append_more.
    change (Str.drop (4 + (String.length c + 1)) ("<!--" ++ c ++ Str.nl ++ b))
      with (Str.drop (String.length c + 1) (c ++ Str.nl ++ b)).
    now rewrite drop_append_more. }
  rewrite Hdrop.
  assert (Hlen : 1 <= String.length s).
  { unfold s. rewrite !append_length. simpl. lia. }
  destruct (String.length s) as [|n]; [lia|].
  apply removeAllFrom_none, comment_search_none.
  now apply (noChar_includes "<").
Qed.

Lemma unclosed_comment_takes_line_witness :
  noChar "<" "Intro " = true /\ noChar Str.LF " todo: finish" = true
  /\ noChar ">" " todo: finish" = true /\ noChar "<" "Next line" = true
  /\ noChar ">" "Next line" = true
  /\ removeAll COMMENT_REGEX ("Intro " ++ "<!--" ++ " todo: finish" ++ Str.nl ++ "Next line")
     = "Intro " ++ "Next line".
Proof.
  repeat (split; [reflexivity|]).
  exact (unclosed_comment_takes_line "Intro " " todo: finish" "Next line"
           eq_refl eq_refl eq_refl eq_refl eq_refl).
Defined.

(* ================================================================== *)
(** ** Further properties: [crawl] *)

(** X5. [crawl] only appends to the array it is given: what it finds, and
    whether it throws, does not depend on what the array holds. *)
Theorem crawl_appends (root : node) (filter : option regex) (fuel : nat) :
  forall (dir : string) (files : list string),
    crawl fuel root dir filter files =
    match crawl fuel root dir filter [] with
    | Ok found => Ok (files ++ found)%list
    | Throw e => Throw e
    | OutOfFuel => OutOfFuel
    end.
Proof.
  induction fuel as [|fuel IH]; intros dir files; [reflexivity|].
  rewrite !crawl_step.
  destruct (lstatSync root dir) as [st| e |]; cbn [bind]; try reflexivity.
  destruct (isDirectory st).
  - destruct (readdirSync root dir) as [names| e |]; cbn [bind]; try reflexivity.
    revert files. induction names as [|name names IHn]; intros files.
    + cbn [foldOutcome]. now rewrite app_nil_r.
    + cbn [foldOutcome]. rewrite (IH _ files).
      destruct (crawl fuel root (dir ++ "/" ++ name) filter []) as [f1| e |];
        cbn [bind]; try reflexivity.
      rewrite (IHn (files ++ f1)%list), (IHn f1).
      destruct (foldOutcome
                  (fun fs0 filename => crawl fuel root (dir ++ "/" ++ filename) filter fs0)
                  names []) as [f2| e |]; try reflexivity.
      cbn [app]. now rewrite app_assoc.
  - destruct (accepts filter dir); [reflexivity|]. now rewrite app_nil_r.
Qed.

Lemma listing_dir (entries : list (string * node)) (p : string) :
  listing (Dir entries) p
  = flat_map (fun e => listing (snd e) (p ++ "/" ++ fst e)) entries.
Proof.
  cbn [listing]. induction entries as [|e rest IH]; [reflexivity|].
  cbn [flat_map]. now rewrite IH.
Qed.

(** What [crawl] adds is the accepted part of the listing of the tree. *)
Lemma crawl_listing (root : node) (filter : option regex) (n : node) :
  forall (dir : string) (files : list string) (fuel : nat),
    wfTree n -> lookup root dir = Some n -> depth n < fuel ->
    crawl fuel root dir filter files
    = Ok (files ++ List.filter (accepts filter) (listing n dir))%list.
Proof.
  induction n as [text | entries IH] using node_induction;
    intros dir files fuel Hwf Hdir Hfuel.
  - destruct fuel as [|fuel]; [lia|].
    rewrite (crawl_file root filter fuel dir text files Hdir).
    cbn [listing List.filter]. destruct (accepts filter dir); [reflexivity|].
    now rewrite app_nil_r.
  - destruct fuel as [|fuel]; [lia|].
    rewrite (crawl_dir root filter fuel dir entries files Hdir), listing_dir.
    destruct (wfTree_dir _ Hwf) as [Hnd Hentries].
    rewrite Forall_forall in IH.
    assert (Hsub : forall l, incl l entries -> forall files,
               foldOutcome
                 (fun fs0 filename => crawl fuel root (dir ++ "/" ++ filename) filter fs0)
                 (map fst l) files
               = Ok (files ++ List.filter (accepts filter)
                       (flat_map (fun e => listing (snd e) (dir ++ "/" ++ fst e)) l))%list).
    { induction l as [|[name child] rest IHl]; intros Hincl files0.
      - cbn. now rewrite app_nil_r.
      - assert (Hin : In (name, child) entries) by (apply Hincl; now left).
        destruct (Hentries _ _ Hin) as [Hname Hwfc].
        assert (Hlook : lookup root (dir ++ "/" ++ name) = Some child).
        { rewrite (lookup_child _ _ _ _ Hname Hdir). now apply assoc_In. }
        pose proof (depth_child _ _ _ Hin) as Hdepth.
        cbn [map fst foldOutcome flat_map snd].
        rewrite (IH _ Hin (dir ++ "/" ++ name) files0 fuel Hwfc Hlook
                    ltac:(simpl in *; lia)).
        cbn [bind]. rewrite (IHl (fun e He => Hincl e (or_intror He))).
        now rewrite filter_app, app_assoc. }
    apply Hsub, incl_refl.
Qed.

(** X6. On a well-formed tree [crawl] returns the accepted files in
    depth-first order, the entries of every directory in the order of
    [readdirSync]. *)
Theorem crawl_depth_first
        (root : node) (filter : option regex) (n : node) (dir : string)
        (files : list string) (fuel : nat) :
  wfTree n -> lookup root dir = Some n -> depth n < fuel ->
  crawl fuel root dir filter files
  = Ok (files ++ List.filter (accepts filter) (listing n dir))%list.
Proof. apply crawl_listing. Qed.

Lemma crawl_depth_first_witness :
  wfTree repoTree /\ lookup cloned "/o-r-main" = Some repoTree /\ depth repoTree < 4
  /\ crawl 4 cloned "/o-r-main" (Some MARKDOWN_REGEX) ["seen"]
     = Ok ["seen"; "/o-r-main/docs/guide/intro.md"; "/o-r-main/docs/a.md";
           "/o-r-main/docs/a.mdx"; "/o-r-main/README.md"].
Proof.
  split; [exact repoTree_wf|]. split; [reflexivity|]. split; [simpl; lia|].
  exact (crawl_depth_first cloned (Some MARKDOWN_REGEX) repoTree "/o-r-main" ["seen"] 4
           repoTree_wf eq_refl ltac:(simpl; lia)).
Defined.

(** X7. Whatever the tree looks like, every path a returning [crawl] adds
    passes the filter when there is one, is the start path or lies below
    it, and is a path that exists and for which [lstatSync] answers
    [isDirectory()] with false. *)
Theorem crawl_returns_non_directories
        (root : node) (filter : option regex) (fuel : nat) (dir : string)
        (files : list string) :
  crawl fuel root dir filter [] = Ok files ->
  forall f, In f files ->
            match filter with None => True | Some r => test r f = true end
            /\ (f = dir \/ exists rest, f = dir ++ "/" ++ rest)
            /\ exists st, lstatSync root f = Ok st /\ isDirectory st = false.
Proof.
  intros Hrun f Hf.
  destruct (crawl_sound root filter fuel _ _ _ Hrun f Hf)
    as [[] | (Hacc & Hbelow & text & Htext)].
  split; [|split; [exact Hbelow|]].
  - destruct filter as [r|]; [exact Hacc | exact I].
  - exists (File text). unfold lstatSync. now rewrite Htext.
Qed.

Lemma crawl_returns_non_directories_witness :
  crawl 3 cloned "/o-r-main/docs" None []
  = Ok ["/o-r-main/docs/guide/intro.md"; "/o-r-main/docs/a.md";
        "/o-r-main/docs/a.mdx"; "/o-r-main/docs/notes.txt"]
  /\ lstatSync cloned "/o-r-main/docs/guide" = Ok (Dir [("intro.md", File introText)])
  /\ True
  /\ ("/o-r-main/docs/notes.txt" = "/o-r-main/docs"
      \/ exists rest, "/o-r-main/docs/notes.txt" = "/o-r-main/docs" ++ "/" ++ rest)
  /\ exists st, lstatSync cloned "/o-r-main/docs/notes.txt" = Ok st
                /\ isDirectory st = false.
Proof.
  split; [reflexivity|]. split; [reflexivity|].
  apply (crawl_returns_non_directories cloned None 3 "/o-r-main/docs" _ eq_refl).
  simpl. tauto.
Defined.

(* ================================================================== *)
(** ** Further properties: paths, slugs and keys *)

(** X8. [MARKDOWN_REGEX] accepts exactly the strings that end with [.md]
    or [.mdx]. *)
Theorem markdown_filter_exact (s : string) :
  test MARKDOWN_REGEX s = true <-> exists b, s = b ++ ".md" \/ s = b ++ ".mdx".
Proof. rewrite test_markdown. apply hasExt_iff. Qed.

Lemma markdown_filter_exact_witness :
  test MARKDOWN_REGEX "guide/intro.mdx" = true
  /\ exists b, "guide/intro.mdx" = b ++ ".md" \/ "guide/intro.mdx" = b ++ ".mdx".
Proof.
  split; [reflexivity|].
  exact (proj1 (markdown_filter_exact "guide/intro.mdx") eq_refl).
Defined.

(** X9. Replacing [MARKDOWN_REGEX] by nothing strips one final [.md] or
    [.mdx] and nothing else; a string the expression does not accept is
    left as it is. *)
Theorem markdown_extension_stripped (b s : string) :
  removeFirst MARKDOWN_REGEX (b ++ ".md") = b
  /\ removeFirst MARKDOWN_REGEX (b ++ ".mdx") = b
  /\ (test MARKDOWN_REGEX s = false -> removeFirst MARKDOWN_REGEX s = s).
Proof.
  rewrite !removeFirst_markdown, dropExt_md, dropExt_mdx, test_markdown.
  split; [reflexivity|]. split; [reflexivity|]. apply dropExt_none.
Qed.

Lemma markdown_extension_stripped_witness :
  test MARKDOWN_REGEX "notes.md.txt" = false
  /\ removeFirst MARKDOWN_REGEX ("a.md" ++ ".md") = "a.md"
  /\ removeFirst MARKDOWN_REGEX ("a.md" ++ ".mdx") = "a.md"
  /\ removeFirst MARKDOWN_REGEX "notes.md.txt" = "notes.md.txt".
Proof.
  split; [reflexivity|].
  destruct (markdown_extension_stripped "a.md" "notes.md.txt") as (H1 & H2 & H3).
  split; [exact H1|]. split; [exact H2|]. exact (H3 eq_refl).
Defined.

Lemma join_split (s : string) : Str.join "/" (Str.split "/" s) = s.
Proof.
  induction s as [|c s IH]; [reflexivity|].
  cbn [Str.split]. pose proof (split_not_nil "/" s) as Hne.
  destruct (Ascii.eqb_spec c "/") as [-> | _].
  - destruct (Str.split "/" s) as [|h t] eqn:Hs; [congruence|].
    cbn [Str.join]. cbn [Str.join] in IH. now rewrite IH.
  - destruct (Str.split "/" s) as [|h [|h2 t]] eqn:Hs; [congruence | |].
    + cbn [Str.join] in *. now rewrite IH.
    + cbn [Str.join] in *. rewrite <- IH. reflexivity.
Qed.

Lemma docKey_path {D : Type} (lib : string) (d : Doc D) :
  slug d = docSlug lib (path d) ->
  Str.join "/" (slug d) = lib ++ "/" ++ dropExt (path d).
Proof.
  intros ->. unfold docSlug. rewrite removeFirst_markdown.
  pose proof (split_not_nil "/" (dropExt (path d))) as Hne.
  pose proof (join_split (dropExt (path d))) as Hjoin.
  destruct (Str.split "/" (dropExt (path d))) as [|h t]; [congruence|].
  change (Str.join "/" (lib :: h :: t)) with (lib ++ "/" ++ Str.join "/" (h :: t)).
  now rewrite Hjoin.
Qed.

(** The form of the keys of a docs map. *)
Lemma docs_key_form
        (E : Env) (fuel : nat) (lib : string) (w w' : World) (m : DocMap (Data E)) :
  getDocs E fuel (Some lib) w = (w', Ok (LibDocs m)) ->
  forall k d, In (k, d) m -> k = lib ++ "/" ++ dropExt (path d).
Proof.
  intros Hrun k d Hin.
  destruct (getDocs_lib_inv E _ _ _ _ _ Hrun)
    as (fuel' & params & files & -> & Hlib & Hp & Hclone & Hcrawl & Hbuild).
  assert (Hinv : docsInvariant E lib params (fs w') ([] ++ files) m).
  { apply (build_invariant E lib params (fs w') files [] []); [|assumption].
    split; [constructor | intros k0 d0 []]. }
  destruct Hinv as [_ Hentries].
  destruct (Hentries k d Hin) as (-> & file & _ & Hparse).
  destruct (parseDoc_fields E lib params (fs w') file d Hparse) as [_ Hslug].
  now apply docKey_path.
Qed.

(** X10. Every document of the docs map [getDocs(lib)] returns is stored
    under the library id, a [/], and its path field without the markdown
    extension. *)
Theorem docs_key_is_path
        (E : Env) (fuel : nat) (lib : string) (w w' : World) (m : DocMap (Data E)) :
  getDocs E fuel (Some lib) w = (w', Ok (LibDocs m)) ->
  forall k d, In (k, d) m -> k = lib ++ "/" ++ dropExt (path d).
Proof. apply docs_key_form. Qed.

Lemma docs_key_is_path_witness :
  getDocs env 4 (Some "lib") emptyWorld
  = ({| fs := cloned; clones := [cloneRequest (mkParams "o/r" "main" "docs")] |},
     Ok (LibDocs [("lib/guide/intro", introDoc); ("lib/a", secondDoc)]))
  /\ "lib/guide/intro" = "lib" ++ "/" ++ dropExt (path introDoc).
Proof.
  split; [reflexivity|].
  apply (docs_key_is_path env 4 "lib" emptyWorld _ _ eq_refl). now left.
Defined.

(** X11. The docs maps of two different libraries whose ids hold no [/]
    have no key in common. *)
Theorem library_keys_disjoint
        (E1 E2 : Env) (fuel1 fuel2 : nat) (lib1 lib2 : string) (w1 w1' w2 w2' : World)
        (m1 : DocMap (Data E1)) (m2 : DocMap (Data E2)) :
  getDocs E1 fuel1 (Some lib1) w1 = (w1', Ok (LibDocs m1)) ->
  getDocs E2 fuel2 (Some lib2) w2 = (w2', Ok (LibDocs m2)) ->
  noSlash lib1 = true -> noSlash lib2 = true -> lib1 <> lib2 ->
  forall k, In k (map fst m1) -> ~ In k (map fst m2).
Proof.
  intros Hrun1 Hrun2 Hl1 Hl2 Hne k Hk1 Hk2.
  apply in_map_iff in Hk1 as ([k1 d1] & <- & Hin1).
  apply in_map_iff in Hk2 as ([k2 d2] & Hk & Hin2). cbn [fst] in *.
  rewrite (docs_key_form E1 _ _ _ _ _ Hrun1 _ _ Hin1) in Hk.
  rewrite (docs_key_form E2 _ _ _ _ _ Hrun2 _ _ Hin2) in Hk.
  apply Hne. symmetry.
  apply (name_then_rest_inj lib2 lib1 ("/" ++ dropExt (path d2))
           ("/" ++ dropExt (path d1))); eauto.
Qed.

Lemma library_keys_disjoint_witness :
  getDocs env 4 (Some "lib") emptyWorld
  = ({| fs := cloned; clones := [cloneRequest (mkParams "o/r" "main" "docs")] |},
     Ok (LibDocs [("lib/guide/intro", introDoc); ("lib/a", secondDoc)]))
  /\ getDocs env 5 (Some "whole") emptyWorld
     = ({| fs := cloned; clones := [cloneRequest (mkParams "o/r" "main" "")] |},
        Ok (LibDocs wholeDocs))
  /\ ~ In "lib/a" (map fst wholeDocs).
Proof.
  split; [reflexivity|]. split; [reflexivity|].
  apply (library_keys_disjoint env env 4 5 "lib" "whole" emptyWorld _ emptyWorld _
           _ _ eq_refl eq_refl eq_refl eq_refl); [discriminate|].
  right. now left.
Defined.

(* ================================================================== *)
(** ** Further properties: [getParams] and [getDocs] *)

Lemma replaceFirstChar_first (o rest r : string) :
  noSlash o = true ->
  Str.replaceFirstChar "/" r (o ++ "/" ++ rest) = o ++ r ++ rest.
Proof.
  induction o as [|c o IH]; intros Ho; [reflexivity|].
  cbn [noSlash] in Ho. apply andb_true_iff in Ho as [Hc Ho].
  apply negb_true_iff in Hc.
  change (String c o ++ "/" ++ rest) with (String c (o ++ "/" ++ rest)).
  cbn [Str.replaceFirstChar]. now rewrite Hc, (IH Ho).
Qed.

(** X12. The cache slot does not tell repositories apart: the repository
    [o/n-x] on branch [y] and the repository [o/n] on branch [x-y] get the
    same [gitDir], while their clone requests name different
    repositories. *)
Theorem cache_slot_shared_by_repositories
        (E1 E2 : Env) (lib1 lib2 : string) (c1 c2 : LibConfig) (d1 d2 : DocsConfig)
        (o n x y : string) :
  assoc lib1 (libs E1) = Some c1 -> docs c1 = Some d1 ->
  assoc lib2 (libs E2) = Some c2 -> docs c2 = Some d2 ->
  noSlash o = true ->
  repo d1 = o ++ "/" ++ n ++ "-" ++ x -> branch d1 = Some y ->
  repo d2 = o ++ "/" ++ n -> branch d2 = Some (x ++ "-" ++ y) ->
  exists p1 p2,
    getParams E1 lib1 = Some p1 /\ getParams E2 lib2 = Some p2
    /\ gitDir p1 = gitDir p2
    /\ clone_dir (cloneRequest p1) = clone_dir (cloneRequest p2)
    /\ clone_url (cloneRequest p1) <> clone_url (cloneRequest p2).
Proof.
  intros Hc1 Hd1 Hc2 Hd2 Ho Hr1 Hb1 Hr2 Hb2.
  unfold getParams. rewrite Hc1, Hd1, Hc2, Hd2.
  eexists. eexists. split; [reflexivity|]. split; [reflexivity|].
  cbn [gitDir cloneRequest clone_dir clone_url p_repo].
  rewrite Hr1, Hb1, Hr2, Hb2. cbn [orDefault].
  assert (Hslot : "/" ++ Str.replaceFirstChar "/" "-" (o ++ "/" ++ n ++ "-" ++ x) ++ "-" ++ y
                  = "/" ++ Str.replaceFirstChar "/" "-" (o ++ "/" ++ n) ++ "-" ++ x ++ "-" ++ y).
  { rewrite !replaceFirstChar_first by assumption.
    now rewrite !append_assoc. }
  split; [exact Hslot|]. split; [exact Hslot|].
  intros Hurl. apply append_inv_head in Hurl. apply append_inv_head in Hurl.
  apply (f_equal String.length) in Hurl. cbn [append] in Hurl.
  cbn [String.length] in Hurl. rewrite !append_length in Hurl.
  cbn [String.length] in Hurl. lia.
Qed.

Lemma cache_slot_shared_by_repositories_witness :
  gitDir (mkParams "o/n-x" "y" "") = "/o-n-x-y"
  /\ gitDir (mkParams "o/n" "x-y" "") = "/o-n-x-y"
  /\ exists p1 p2,
      getParams slotEnv "one" = Some p1 /\ getParams slotEnv "two" = Some p2
      /\ gitDir p1 = gitDir p2
      /\ clone_dir (cloneRequest p1) = clone_dir (cloneRequest p2)
      /\ clone_url (cloneRequest p1) <> clone_url (cloneRequest p2).
Proof.
  split; [reflexivity|]. split; [reflexivity|].
  exact (cache_slot_shared_by_repositories slotEnv slotEnv "one" "two"
           {| docs := Some {| dir := None; repo := "o/n-x"; branch := Some "y" |} |}
           {| docs := Some {| dir := None; repo := "o/n"; branch := Some "x-y" |} |}
           {| dir := None; repo := "o/n-x"; branch := Some "y" |}
           {| dir := None; repo := "o/n"; branch := Some "x-y" |}
           "o" "n" "x" "y"
           eq_refl eq_refl eq_refl eq_refl eq_refl eq_refl eq_refl eq_refl eq_refl).
Defined.

(** X13. When [git.clone] rejects, [getDocs(lib)] rejects with the same
    error: the clone is logged, the file system is what the clone left, and
    nothing is crawled or parsed. *)
Theorem clone_failure_propagates
        (E : Env) (fuel : nat) (lib : string) (params : Params) (w : World)
        (left : node) (e : Error) :
  lib <> "" -> getParams E lib = Some params ->
  gitClone E w (cloneRequest params) = (left, Some e) ->
  getDocs E (S fuel) (Some lib) w
  = ({| fs := left; clones := (clones w ++ [cloneRequest params])%list |}, Throw e).
Proof.
  intros Hlib Hp Hclone. rewrite (getDocs_lib E fuel lib w Hlib), Hp.
  unfold clone. now rewrite Hclone.
Qed.

Lemma clone_failure_propagates_witness :
  "gone" <> "" /\ getParams brokenEnv "gone" = Some (mkParams "o/missing" "main" "")
  /\ gitClone brokenEnv emptyWorld (cloneRequest (mkParams "o/missing" "main" ""))
     = (Dir [], Some AcquisitionFailure)
  /\ getDocs brokenEnv 1 (Some "gone") emptyWorld
     = ({| fs := Dir []; clones := [cloneRequest (mkParams "o/missing" "main" "")] |},
        Throw AcquisitionFailure).
Proof.
  assert (Hlib : "gone" <> "") by discriminate.
  split; [exact Hlib|]. split; [reflexivity|]. split; [reflexivity|].
  exact (clone_failure_propagates brokenEnv 0 "gone" _ emptyWorld _ _ Hlib eq_refl eq_refl).
Defined.

(** X14. When the clone succeeds and the entry path does not exist in the
    file system it leaves, [getDocs(lib)] rejects with ENOENT for the entry
    path. *)
Theorem missing_entry_rejects
        (E : Env) (fuel : nat) (lib : string) (params : Params) (w : World)
        (left : node) :
  lib <> "" -> getParams E lib = Some params ->
  gitClone E w (cloneRequest params) = (left, None) ->
  lookup left (entry params) = None ->
  getDocs E (S (S fuel)) (Some lib) w
  = ({| fs := left; clones := (clones w ++ [cloneRequest params])%list |},
     Throw (ENOENT (entry params))).
Proof.
  intros Hlib Hp Hclone Hentry. rewrite (getDocs_lib E _ lib w Hlib), Hp.
  unfold clone. rewrite Hclone. cbn [bind fs]. rewrite crawl_step.
  unfold lstatSync. now rewrite Hentry.
Qed.

Lemma missing_entry_rejects_witness :
  "nodir" <> ""
  /\ getParams nodirEnv "nodir" = Some (mkParams "o/r" "main" "documentation")
  /\ gitClone nodirEnv emptyWorld (cloneRequest (mkParams "o/r" "main" "documentation"))
     = (cloned, None)
  /\ lookup cloned "/o-r-main/documentation" = None
  /\ getDocs nodirEnv 2 (Some "nodir") emptyWorld
     = ({| fs := cloned;
           clones := [cloneRequest (mkParams "o/r" "main" "documentation")] |},
        Throw (ENOENT "/o-r-main/documentation")).
Proof.
  assert (Hlib : "nodir" <> "") by discriminate.
  split; [exact Hlib|]. split; [reflexivity|]. split; [reflexivity|].
  split; [reflexivity|].
  exact (missing_entry_rejects nodirEnv 0 "nodir"
           (mkParams "o/r" "main" "documentation") emptyWorld cloned
           Hlib eq_refl eq_refl eq_refl).
Defined.

(** X15. One file that cannot be parsed aborts the library: when the files
    before it parse and it throws, [getDocs(lib)] rejects with its error
    and returns no docs map. *)
Theorem parse_failure_aborts_library
        (E : Env) (fuel : nat) (lib : string) (params : Params) (w : World)
        (left : node) (pre post : list string) (file : string) (e : Error) :
  lib <> "" -> getParams E lib = Some params ->
  gitClone E w (cloneRequest params) = (left, None) ->
  crawl fuel left (entry params) (Some MARKDOWN_REGEX) [] = Ok (pre ++ file :: post)%list ->
  (forall f, In f pre -> exists d, parseDoc E lib params left f = Ok d) ->
  parseDoc E lib params left file = Throw e ->
  snd (getDocs E (S fuel) (Some lib) w) = Throw e.
Proof.
  intros Hlib Hp Hclone Hcrawl Hpre Hfile.
  rewrite (getDocs_lib E _ lib w Hlib), Hp.
  unfold clone. rewrite Hclone. cbn [bind fs snd]. rewrite Hcrawl. cbn [bind].
  rewrite foldOutcome_app.
  destruct (build_total E lib params left pre Hpre []) as [docs ->].
  cbn [bind foldOutcome]. unfold addDoc at 1. now rewrite Hfile.
Qed.

Lemma parse_failure_aborts_library_witness :
  "bad" <> "" /\ getParams badEnv "bad" = Some (mkParams "o/r" "main" "")
  /\ crawl 2 badCloned "/o-r-main" (Some MARKDOWN_REGEX) []
     = Ok (["/o-r-main/ok.md"] ++ "/o-r-main/bad.md" :: ["/o-r-main/later.md"])%list
  /\ parseDoc badEnv "bad" (mkParams "o/r" "main" "") badCloned "/o-r-main/bad.md"
     = Throw ParseFailure
  /\ snd (getDocs badEnv 3 (Some "bad") emptyWorld) = Throw ParseFailure.
Proof.
  assert (Hlib : "bad" <> "") by discriminate.
  split; [exact Hlib|]. split; [reflexivity|]. split; [reflexivity|].
  split; [reflexivity|].
  apply (parse_failure_aborts_library badEnv 2 "bad" (mkParams "o/r" "main" "")
           emptyWorld badCloned ["/o-r-main/ok.md"] ["/o-r-main/later.md"]
           "/o-r-main/bad.md" ParseFailure Hlib eq_refl eq_refl eq_refl);
    [|reflexivity].
  intros f [<- | []]. eexists. reflexivity.
Defined.

Lemma startAll_log (E : Env) (fuel : nat) (keys : list string) :
  ~ In "" keys ->
  forall w, clones (fst (startAll (start E (S fuel)) keys w))
            = (clones w ++ requests E keys)%list.
Proof.
  induction keys as [|k keys IH]; intros Hkeys w.
  - cbn. now rewrite app_nil_r.
  - assert (Hk : k <> "") by (intros ->; apply Hkeys; now left).
    cbn [startAll]. rewrite (start_lib E fuel k w Hk).
    unfold requests. cbn [flat_map].
    destruct (getParams E k) as [params|].
    + unfold clone at 1.
      destruct (gitClone E w (cloneRequest params)) as [root err].
      match goal with
      | |- context [startAll _ keys ?w1] =>
          specialize (IH (fun H => Hkeys (or_intror H)) w1);
          destruct (startAll (start E (S fuel)) keys w1) as [w2 os]
      end.
      cbn [fst] in *. rewrite IH. cbn [clones]. unfold requests.
      now rewrite <- app_assoc.
    + specialize (IH (fun H => Hkeys (or_intror H)) w).
      destruct (startAll (start E (S fuel)) keys w) as [w2 os].
      cbn [fst] in *. rewrite IH. reflexivity.
Qed.

(** X16. A call for all libraries clones every library that has a docs
    configuration exactly once, in the order of the table, whether or not
    one of the clones fails (no key of the table being the empty
    string). *)
Theorem all_libraries_cloned_once (E : Env) (fuel : nat) (w : World) :
  ~ In "" (map fst (libs E)) ->
  clones (fst (getDocs E (S (S fuel)) None w))
  = (clones w ++ requests E (map fst (libs E)))%list.
Proof.
  intros Hkeys. rewrite getDocs_all.
  pose proof (startAll_log E fuel (map fst (libs E)) Hkeys w) as Hlog.
  now destruct (startAll (start E (S fuel)) (map fst (libs E)) w).
Qed.

Lemma all_libraries_cloned_once_witness :
  ~ In "" (map fst (libs brokenEnv))
  /\ snd (getDocs brokenEnv 6 None emptyWorld) = Throw AcquisitionFailure
  /\ clones (fst (getDocs brokenEnv 6 None emptyWorld))
     = [cloneRequest (mkParams "o/missing" "main" "");
        cloneRequest (mkParams "o/r" "main" "docs");
        cloneRequest (mkParams "o/r" "main" "")].
Proof.
  assert (Hkeys : ~ In "" (map fst (libs brokenEnv))) by (simpl; intuition discriminate).
  split; [exact Hkeys|]. split; [reflexivity|].
  exact (all_libraries_cloned_once brokenEnv 4 emptyWorld Hkeys).
Defined.

(** X17. With enough fuel [getDocs(lib)] returns a docs map: when the
    clone succeeds, the entry path is a well-formed tree of the file system
    it leaves, and every markdown file of that tree parses.  The map is
    built from the markdown files of the tree in depth-first order. *)
Theorem getDocs_returns_docs_map
        (E : Env) (lib : string) (params : Params) (w : World) (left n : node)
        (fuel : nat) :
  lib <> "" -> getParams E lib = Some params ->
  gitClone E w (cloneRequest params) = (left, None) ->
  lookup left (entry params) = Some n -> wfTree n -> depth n < fuel ->
  (forall file,
      In file (List.filter (test MARKDOWN_REGEX) (listing n (entry params))) ->
      exists d, parseDoc E lib params left file = Ok d) ->
  exists m,
    getDocs E (S fuel) (Some lib) w
    = ({| fs := left; clones := (clones w ++ [cloneRequest params])%list |},
       Ok (LibDocs m))
    /\ foldOutcome (addDoc E lib params left)
         (List.filter (test MARKDOWN_REGEX) (listing n (entry params))) [] = Ok m.
Proof.
  intros Hlib Hp Hclone Hentry Hwf Hfuel Hparse.
  rewrite (getDocs_lib E _ lib w Hlib), Hp. unfold clone. rewrite Hclone.
  cbn [bind fs].
  rewrite (crawl_listing left (Some MARKDOWN_REGEX) n (entry params) [] fuel
             Hwf Hentry Hfuel).
  cbn [bind app].
  change (accepts (Some MARKDOWN_REGEX)) with (test MARKDOWN_REGEX).
  destruct (build_total E lib params left _ Hparse []) as [m Hm].
  exists m. rewrite Hm. now split.
Qed.

Lemma getDocs_returns_docs_map_witness :
  "lib" <> "" /\ getParams env "lib" = Some (mkParams "o/r" "main" "docs")
  /\ gitClone env emptyWorld (cloneRequest (mkParams "o/r" "main" "docs")) = (cloned, None)
  /\ exists m,
      getDocs env 4 (Some "lib") emptyWorld
      = ({| fs := cloned; clones := [cloneRequest (mkParams "o/r" "main" "docs")] |},
         Ok (LibDocs m))
      /\ foldOutcome (addDoc env "lib" (mkParams "o/r" "main" "docs") cloned)
           ["/o-r-main/docs/guide/intro.md"; "/o-r-main/docs/a.md";
            "/o-r-main/docs/a.mdx"] [] = Ok m.
Proof.
  assert (Hlib : "lib" <> "") by discriminate.
  split; [exact Hlib|]. split; [reflexivity|]. split; [reflexivity|].
  refine (getDocs_returns_docs_map env "lib" (mkParams "o/r" "main" "docs") emptyWorld
            cloned
            (Dir [("guide", Dir [("intro.md", File introText)]);
                  ("a.md", File "first"); ("a.mdx", File "second");
                  ("notes.txt", File "not markdown")])
            3 Hlib eq_refl eq_refl eq_refl _ _ _).
  - simpl. repeat split; fresh_names.
  - simpl. lia.
  - intros file Hin. simpl in Hin.
    destruct Hin as [<- | [<- | [<- | []]]]; eexists; reflexivity.
Defined.

(** X18. A front matter that is wrapped in a comment is not parsed: for a
    file that starts with the opening marker, the front matter of the
    document is empty and the block stays in the content, without the
    wrapper.  (Hypotheses as for the uncommenting, and no [<] in the block
    or behind it.) *)
Theorem wrapped_front_matter_not_parsed
        (E : Env) (lib : string) (params : Params) (root : node) (file : string)
        (w1 block w2 tail : string) :
  allChars isSpace w1 = true -> allChars isSpace w2 = true ->
  Str.startsWith "---" block = true -> noChar ">" block = true ->
  endsSolid block = true -> noChar ">" tail = true ->
  noChar "<" block = true -> noChar "<" tail = true ->
  readFileSync root file = Ok ("<!--" ++ w1 ++ block ++ w2 ++ "-->" ++ tail) ->
  exists d,
    parseDoc E lib params root file = Ok d
    /\ data d = emptyData E
    /\ content d = block ++ tail.
Proof.
  intros Hw1 Hw2 Hstart Hgt Hsolid Htail Hlt Hlttail Hread.
  unfold parseDoc. rewrite Hread. cbn [bind].
  assert (Hmatter : matter E ("<!--" ++ w1 ++ block ++ w2 ++ "-->" ++ tail)
                    = Ok (emptyData E, "<!--" ++ w1 ++ block ++ w2 ++ "-->" ++ tail)).
  { reflexivity. }
  rewrite Hmatter. cbn [bind fst snd]. eexists. split; [reflexivity|].
  cbn [data content]. split; [reflexivity|].
  rewrite (frontmatter_unwrapped w1 block w2 tail) by assumption.
  apply removeAllFrom_none, comment_search_none.
  apply (noChar_includes "<"); [reflexivity|].
  now rewrite noChar_append, Hlt, Hlttail.
Qed.

Lemma wrapped_front_matter_not_parsed_witness :
  allChars isSpace Str.nl = true /\ Str.startsWith "---" wrappedBlock = true
  /\ noChar ">" wrappedBlock = true /\ endsSolid wrappedBlock = true
  /\ noChar ">" (Str.nl ++ "# Doc") = true /\ noChar "<" wrappedBlock = true
  /\ noChar "<" (Str.nl ++ "# Doc") = true
  /\ readFileSync wrappedTree "/o-r-main/docs/vanilla.md" = Ok wrappedText
  /\ exists d,
      parseDoc env "lib" (mkParams "o/r" "main" "docs") wrappedTree
               "/o-r-main/docs/vanilla.md" = Ok d
      /\ data d = []
      /\ content d = wrappedBlock ++ Str.nl ++ "# Doc".
Proof.
  repeat (split; [reflexivity|]).
  exact (wrapped_front_matter_not_parsed env "lib" (mkParams "o/r" "main" "docs")
           wrappedTree "/o-r-main/docs/vanilla.md" Str.nl wrappedBlock Str.nl
           (Str.nl ++ "# Doc")
           eq_refl eq_refl eq_refl eq_refl eq_refl eq_refl eq_refl eq_refl eq_refl).
Defined.

(** X19. When the entry path of a library is a directory, every document
    of the docs map [getDocs(lib)] returns has as its path field the path
    of a crawled file relative to the entry path, with [.md] or [.mdx]
    still at its end; the slug it stores is the library id followed by
    the segments of that relative path, the extension dropped from the
    last one; and the document is filed under that slug joined by [/]. *)
Theorem directory_entry_docs_relative
        (E : Env) (fuel : nat) (lib : string) (w w' : World) (m : DocMap (Data E))
        (params : Params) :
  getDocs E fuel (Some lib) w = (w', Ok (LibDocs m)) ->
  getParams E lib = Some params ->
  isDirectory_at (fs w') (entry params) = true ->
  exists files,
    crawl (pred fuel) (fs w') (entry params) (Some MARKDOWN_REGEX) [] = Ok files
    /\ forall k d,
        In (k, d) m ->
        In (entry params ++ "/" ++ path d) files
        /\ (exists b, path d = b ++ ".md" \/ path d = b ++ ".mdx")
        /\ slug d = lib :: mapLast dropExt (Str.split "/" (path d))
        /\ k = Str.join "/" (slug d).
Proof.
  intros Hrun Hparams Hdir.
  destruct (getDocs_lib_inv E _ _ _ _ _ Hrun)
    as (fuel' & params' & files & -> & Hlib & Hp & Hclone & Hcrawl & Hbuild).
  rewrite Hparams in Hp. injection Hp as <-.
  exists files. cbn [pred]. split; [assumption|].
  assert (Hinv : docsInvariant E lib params (fs w') ([] ++ files) m).
  { apply (build_invariant E lib params (fs w') files [] []); [|assumption].
    split; [constructor | intros k d []]. }
  destruct Hinv as [_ Hentries].
  intros k d Hin. destruct (Hentries k d Hin) as (Hk & file & Hfile & Hparse).
  destruct (parseDoc_fields E lib params (fs w') file d Hparse) as [Hpath Hslug].
  destruct (crawl_sound _ _ _ _ _ _ Hcrawl file Hfile)
    as [[] | (Hacc & Hbelow & text & Htext)].
  destruct (docPath_below _ _ Hbelow) as [_ Hform]. rewrite <- Hpath in Hform.
  assert (Hfile' : file = entry params ++ "/" ++ path d).
  { destruct Hform as [[-> _] | Hform]; [|assumption].
    unfold isDirectory_at in Hdir. rewrite Htext in Hdir. discriminate. }
  simpl in Hacc. rewrite test_markdown in Hacc.
  rewrite Hfile', hasExt_below in Hacc.
  split; [now rewrite <- Hfile'|]. split; [now apply hasExt_iff|]. split.
  - rewrite Hslug. unfold docSlug.
    now rewrite removeFirst_markdown, split_dropExt.
  - exact Hk.
Qed.

Lemma directory_entry_docs_relative_witness :
  getDocs env 4 (Some "lib") emptyWorld
  = ({| fs := cloned; clones := [cloneRequest (mkParams "o/r" "main" "docs")] |},
     Ok (LibDocs [("lib/guide/intro", introDoc); ("lib/a", secondDoc)]))
  /\ getParams env "lib" = Some (mkParams "o/r" "main" "docs")
  /\ isDirectory_at cloned "/o-r-main/docs" = true
  /\ exists files,
      crawl 3 cloned "/o-r-main/docs" (Some MARKDOWN_REGEX) [] = Ok files
      /\ forall k d,
          In (k, d) [("lib/guide/intro", introDoc); ("lib/a", secondDoc)] ->
          In ("/o-r-main/docs" ++ "/" ++ path d) files
          /\ (exists b, path d = b ++ ".md" \/ path d = b ++ ".mdx")
          /\ slug d = "lib" :: mapLast dropExt (Str.split "/" (path d))
          /\ k = Str.join "/" (slug d).
Proof.
  split; [reflexivity|]. split; [reflexivity|]. split; [reflexivity|].
  exact (directory_entry_docs_relative env 4 "lib" emptyWorld _ _
           (mkParams "o/r" "main" "docs") eq_refl eq_refl eq_refl).
Defined.
